(** * Paperless-ngx node for n8n: a shallow embedding of [PaperlessNgx.execute]
      and of the [PaperlessNgxApi] credential type.

    The node's [execute] method is a loop over the input items whose body
    talks to the workflow host (parameters, binary data, authenticated HTTP
    helpers).  The embedding threads an explicit state through that loop:

    - the host's input store [inputData] (one item array per input
      connection; the array of connection 0 is the very array the loop
      iterates over and pushes to),
    - the accumulator [returnData],
    - the list [sent] of HTTP requests that reached the remote API, each
      tagged with the item index the node handed to the helper.

    Exceptions are results ([Throw]); the fuel of the two loops that have no
    structural bound (the [for] loop over a growing array, the pagination of
    a Read) is explicit ([Diverge] is "fuel exhausted"). *)

From Stdlib Require Import List String Ascii Bool Arith Lia ZArith.
From Stdlib Require Import Sorted.
Import ListNotations.
Local Open Scope string_scope.
Local Open Scope list_scope.

Set Warnings "-register-all".

(* ------------------------------------------------------------------ *)
(** ** JavaScript values *)

(** JSON values as the node sees them, with JavaScript's [undefined] for an
    absent property. *)
Inductive JSON : Type :=
| JUndefined
| JNull
| JBool (b : bool)
| JNum (z : Z)
| JStr (s : string)
| JArr (elems : list JSON)
| JObj (fields : list (string * JSON)).

(** A JS object literal: properties in insertion order, keys unique. *)
Fixpoint obj_get {A : Type} (fields : list (string * A)) (k : string) : option A :=
  match fields with
  | [] => None
  | (k', v) :: rest => if String.eqb k' k then Some v else obj_get rest k
  end.

(** [o[k] = v]: overwrite in place, or append a new property. *)
Fixpoint obj_set {A : Type} (fields : list (string * A)) (k : string) (v : A)
  : list (string * A) :=
  match fields with
  | [] => [(k, v)]
  | (k', v') :: rest =>
      if String.eqb k' k then (k', v) :: rest else (k', v') :: obj_set rest k v
  end.

(** Property read [v.k] / [v["k"]] for the two keys the node reads
    ([results] and [next]): a [TypeError] ([None]) on [undefined] and [null],
    [undefined] for a missing key or a value that has no such property. *)
Definition get_prop (v : JSON) (k : string) : option JSON :=
  match v with
  | JUndefined | JNull => None
  | JObj fields =>
      Some (match obj_get fields k with Some x => x | None => JUndefined end)
  | _ => Some JUndefined
  end.

(** [v !== null] *)
Definition not_null (v : JSON) : bool :=
  match v with JNull => false | _ => true end.

(* ------------------------------------------------------------------ *)
(** ** Errors *)

Record Context : Type := mkContext { itemIndex : option nat }.

(** A thrown value: its class name, its message and, for the host's node
    errors, the [context] object. *)
Record JsError : Type := mkError {
  err_name : string;
  err_message : string;
  err_context : option Context
}.

(** [new NodeOperationError(node, error, { itemIndex })]: the host's error
    class keeps the message and stores the index in its context. *)
Definition NodeOperationError (error : JsError) (idx : nat) : JsError :=
  {| err_name := "NodeOperationError";
     err_message := err_message error;
     err_context := Some (mkContext (Some idx)) |}.

Definition TypeError (msg : string) : JsError :=
  {| err_name := "TypeError"; err_message := msg; err_context := None |}.

(** What the host's [assertBinaryData] raises when the item carries no
    binary property of the requested name. *)
Definition missingBinaryError (idx : nat) (propertyName : string) : JsError :=
  {| err_name := "NodeOperationError";
     err_message := "This operation expects the node's input data to contain a binary file '"
                    ++ propertyName ++ "', but none was found";
     err_context := Some (mkContext (Some idx)) |}.

Inductive Result (A : Type) : Type :=
| Ok (a : A)
| Throw (e : JsError)
| Diverge.
Arguments Ok {A} a.
Arguments Throw {A} e.
Arguments Diverge {A}.

(* ------------------------------------------------------------------ *)
(** ** Items, requests, credentials *)

Record IBinaryData : Type := mkBinary {
  data : string;
  mimeType : string;
  fileName : option string;
  id : option string
}.

Record INodeExecutionData : Type := mkItem {
  json : JSON;
  binary : option (list (string * IBinaryData));
  error : option JsError;
  pairedItem : option nat
}.

Definition BINARY_ENCODING : string := "base64".

(** The value of the uploaded part: a stream the host opens by reference, or
    a buffer built from the embedded text in the given encoding. *)
Inductive UploadData : Type :=
| BinaryStream (ref : string)
| BufferFrom (text encoding : string).

Record FormPart : Type := mkPart {
  value : UploadData;
  filename : option string;
  contentType : string
}.

Record IRequestOptions : Type := mkRequest {
  method : string;
  uri : JSON;
  headers : list (string * string);
  qs : list (string * JSON);
  formData : list (string * FormPart);
  json_flag : bool
}.

Record Credentials : Type := mkCredentials { domain : string; token : string }.

Inductive Resource : Type := Correspondent | DocumentType | Document.
Inductive Operation : Type := Create | Read | Update | Delete.

Definition Resource_eqb (a b : Resource) : bool :=
  match a, b with
  | Correspondent, Correspondent | DocumentType, DocumentType
  | Document, Document => true
  | _, _ => false
  end.

Definition Operation_eqb (a b : Operation) : bool :=
  match a, b with
  | Create, Create | Read, Read | Update, Update | Delete, Delete => true
  | _, _ => false
  end.

(* ------------------------------------------------------------------ *)
(** ** The credential type [PaperlessNgxApi] *)

Module PaperlessNgxApi.

(** The header template [=Token {{$credentials.token}}], resolved. *)
Definition Authorization (c : Credentials) : string := "Token " ++ token c.

(** [authenticate]: the generic scheme, whose only property is the
    [Authorization] header; applying it assigns that property on the
    request's [headers] object. *)
Definition authenticate (c : Credentials) (r : IRequestOptions) : IRequestOptions :=
  {| method := method r;
     uri := uri r;
     headers := obj_set (headers r) "Authorization" (Authorization c);
     qs := qs r;
     formData := formData r;
     json_flag := json_flag r |}.

(** [test.request]: [baseURL] the domain, [url] [/api/documents/]; no
    method (a GET), no headers of its own. *)
Definition test (c : Credentials) : IRequestOptions :=
  {| method := "GET";
     uri := JStr (domain c ++ "/api/documents/");
     headers := [];
     qs := [];
     formData := [];
     json_flag := false |}.

End PaperlessNgxApi.

(* ------------------------------------------------------------------ *)
(** ** The host *)

(** What the remote API answers to a request: a JSON body, or a failure the
    HTTP helper raises. *)
Inductive Reply : Type :=
| Body (b : JSON)
| Failure (e : JsError).

Definition Log : Type := list (nat * IRequestOptions).

(** The part of the execution context that is fixed during a run:
    - [credentials]: [getCredentials('paperlessNgxApi')];
    - [resource]: [getNodeParameter('resource', 0)], read once;
    - [operation]: the value the host holds for the parameter [operation],
      which the node reads once and only gets where the description
      declares the parameter (see [getNodeParameter_operation]);
    - [continueOnFail]: the continuation policy;
    - [param_file i]: the [file] parameter for item [i], [None] when it is
      not set (the node passes the fallback ['data']);
    - [param_additionalFields i]: the [additionalFields] collection for item
      [i], an object that holds [search] or not;
    - [remote]: the API behind the HTTP helpers; its answer may depend on the
      requests it has already received. *)
Record Host : Type := mkHost {
  credentials : Credentials;
  resource : Resource;
  operation : Operation;
  continueOnFail : bool;
  param_file : nat -> option string;
  param_additionalFields : nat -> list (string * JSON);
  remote : Log -> IRequestOptions -> Reply
}.

(** What changes during a run.  [inputData] is the host's store of input
    items, one array per input connection of the node (the node declares the
    single input [main], so a store built by the host has one array). *)
Record State : Type := mkState {
  inputData : list (list INodeExecutionData);
  returnData : list INodeExecutionData;
  sent : Log
}.

Definition M (A : Type) : Type := State -> Result A * State.

Definition ret {A : Type} (a : A) : M A := fun st => (Ok a, st).
Definition throw {A : Type} (e : JsError) : M A := fun st => (Throw e, st).
Definition bind {A B : Type} (m : M A) (k : A -> M B) : M B :=
  fun st =>
    match m st with
    | (Ok a, st') => k a st'
    | (Throw e, st') => (Throw e, st')
    | (Diverge, st') => (Diverge, st')
    end.

Notation "x <- m ;; k" := (bind m (fun x => k))
  (at level 61, m at next level, right associativity).
Notation "m ;;; k" := (bind m (fun _ => k))
  (at level 61, right associativity).

(** [this.getInputData()]: the item array of input connection 0 (an empty
    array when nothing is connected). *)
Definition items (st : State) : list INodeExecutionData :=
  nth 0 (inputData st) [].

(** What the host's [getInputData] raises for an input index beyond the
    connections of the store. *)
Definition inputIndexError : JsError :=
  {| err_name := "ApplicationError";
     err_message := "Could not get input with given index";
     err_context := None |}.

(** [this.getInputData(k)]: the host's accessor is
    [getInputData(inputIndex = 0, connectionType = 'main')]; its first
    argument numbers the input connections, not the items.  It raises when
    the store has fewer than [k] connections, and yields the item array of
    connection [k] otherwise, an empty array when [k] is the number of
    connections, where the store has no array. *)
Definition getInputData (k : nat) : M (list INodeExecutionData) :=
  fun st =>
    if (List.length (inputData st) <? k)%nat
    then (Throw inputIndexError, st)
    else (Ok (nth k (inputData st) []), st).

(** [items.push(x)]: [items] is the store's array of connection 0. *)
Definition items_push (x : INodeExecutionData) : M unit :=
  fun st =>
    (Ok tt,
     {| inputData := match inputData st with
                     | [] => []
                     | its :: others => (its ++ [x]) :: others
                     end;
        returnData := returnData st;
        sent := sent st |}).

(** [returnData.push(...xs)] *)
Definition returnData_push (xs : list INodeExecutionData) : M unit :=
  fun st =>
    (Ok tt,
     {| inputData := inputData st;
        returnData := returnData st ++ xs;
        sent := sent st |}).

(** The binary property [propertyName] of item [idx] of connection 0. *)
Definition binaryOf (idx : nat) (propertyName : string) (st : State)
  : option IBinaryData :=
  match nth_error (items st) idx with
  | Some it =>
      match binary it with
      | Some props => obj_get props propertyName
      | None => None
      end
  | None => None
  end.

(** Modelled from the spec: the host helper
    [this.helpers.assertBinaryData(idx, propertyName)], whose code is not
    among the sources.  Spec section 4.2: "Resolve a named binary payload
    attached to the current item ... Fail if no such binary payload exists
    on the item." *)
Definition assertBinaryData (idx : nat) (propertyName : string) : M IBinaryData :=
  fun st =>
    match binaryOf idx propertyName st with
    | Some b => (Ok b, st)
    | None => (Throw (missingBinaryError idx propertyName), st)
    end.

(** The full response the paginated helper hands back for each page. *)
Record Response : Type := mkResponse { body : JSON }.

Record PaginationOptions : Type := mkPagination {
  continue : Response -> option bool;
  request_url : Response -> option JSON;
  requestInterval : nat
}.

(** The value of a host expression, or the error its evaluation raises. *)
Definition resolve {A : Type} (v : option A) : M A :=
  match v with
  | Some a => ret a
  | None => throw {| err_name := "ExpressionError";
                     err_message := "Cannot read properties of undefined";
                     err_context := None |}
  end.

(** The request for the following page: the same request against the new
    URL, without the original query parameters. *)
Definition follow (requestOptions : IRequestOptions) (url : JSON) : IRequestOptions :=
  {| method := method requestOptions;
     uri := url;
     headers := headers requestOptions;
     qs := [];
     formData := formData requestOptions;
     json_flag := json_flag requestOptions |}.

(** [xs.flatMap(f)] for a callback that may raise. *)
Fixpoint flatMap {A B : Type} (f : A -> option (list B)) (xs : list A)
  : option (list B) :=
  match xs with
  | [] => Some []
  | x :: rest =>
      match f x, flatMap f rest with
      | Some ys, Some zs => Some (ys ++ zs)
      | _, _ => None
      end
  end.

(** What leaves the [catch] block when [this.getInputData(idx)] yields an
    array without a first item: reading [.json] of [undefined] is a
    [TypeError]. *)
Definition handlerError : JsError :=
  TypeError "Cannot read properties of undefined (reading 'json')".

(** [{ json: ..., error, pairedItem: itemIndex }], the record the [catch]
    block builds in continue mode. *)
Definition errorRecord (payload : JSON) (e : JsError) (idx : nat) : INodeExecutionData :=
  {| json := payload; binary := None; error := Some e; pairedItem := Some idx |}.

Section Node.

Variable h : Host.

(** Modelled from the spec: the host helper
    [this.helpers.requestWithAuthentication.call(this, 'paperlessNgxApi',
    requestOptions, undefined, idx)], whose code is not among the sources.
    Spec section 4.1: the credential type's decorator "merges
    [Authorization: Token <token>] into outbound request headers"; the
    helper applies [authenticate], sends the request, and returns the parsed
    body or raises the transport's failure. *)
Definition requestWithAuthentication (requestOptions : IRequestOptions) (idx : nat)
  : M JSON :=
  fun st =>
    let wire := PaperlessNgxApi.authenticate (credentials h) requestOptions in
    let st' := {| inputData := inputData st;
                  returnData := returnData st;
                  sent := sent st ++ [(idx, wire)] |} in
    match remote h (sent st) wire with
    | Body b => (Ok b, st')
    | Failure e => (Throw e, st')
    end.

(* ---------------------------------------------------------------- *)
(** *** Document / Create *)

(** [if (documentBinaryData.id) getBinaryStream(id) else
    Buffer.from(data, BINARY_ENCODING)]; an empty [id] is falsy. *)
Definition documentUploadData (documentBinaryData : IBinaryData) : UploadData :=
  match id documentBinaryData with
  | Some ref => if String.eqb ref "" then BufferFrom (data documentBinaryData) BINARY_ENCODING
                else BinaryStream ref
  | None => BufferFrom (data documentBinaryData) BINARY_ENCODING
  end.

Definition createRequestOptions (documentData documentBinaryData : IBinaryData)
  : IRequestOptions :=
  {| method := "POST";
     uri := JStr (domain (credentials h) ++ "/api/documents/post_document/");
     headers := [];
     qs := [];
     formData :=
       [("document",
         {| value := documentUploadData documentBinaryData;
            filename := fileName documentData;
            contentType := mimeType documentData |})];
     json_flag := true |}.

(** [this.getNodeParameter('file', idx, 'data')] *)
Definition documentFieldName (idx : nat) : string :=
  match param_file h idx with Some s => s | None => "data" end.

Definition createBranch (idx : nat) : M unit :=
  documentData <- assertBinaryData idx (documentFieldName idx) ;;
  documentBinaryData <-
    (fun st => match binaryOf idx (documentFieldName idx) st with
               | Some b => (Ok b, st)
               | None => (Throw (TypeError "Cannot read properties of undefined"), st)
               end) ;;
  responseData <-
    requestWithAuthentication (createRequestOptions documentData documentBinaryData) idx ;;
  returnData_push
    [ {| json := JObj [("task_id", responseData)];
         binary := None; error := None; pairedItem := None |} ].

(* ---------------------------------------------------------------- *)
(** *** Document / Read *)

(** [additionalFields.search] *)
Definition search_of (additionalFields : list (string * JSON)) : JSON :=
  match obj_get additionalFields "search" with
  | Some v => v
  | None => JUndefined
  end.

Definition readRequestOptions (additionalFields : list (string * JSON))
  : IRequestOptions :=
  {| method := "GET";
     uri := JStr (domain (credentials h) ++ "/api/documents/");
     headers := [("Accept", "application/json")];
     qs := [("search", search_of additionalFields)];
     formData := [];
     json_flag := true |}.

(** The node's [paginationOptions]: [continue] is
    [$response.body["next"] !== null], the next [url] is
    [$response.body["next"]], [requestInterval] is 1. *)
Definition paginationOptions : PaginationOptions :=
  {| continue := fun response =>
       match get_prop (body response) "next" with
       | Some v => Some (not_null v)
       | None => None
       end;
     request_url := fun response => get_prop (body response) "next";
     requestInterval := 1 |}.

(** Modelled from the spec: the host helper
    [requestWithAuthenticationPaginated], which the node calls but whose
    code belongs to the workflow host and is not among the sources.  Spec
    section 4.2: after each response, if the continuation expression holds,
    "issue the next request against that URL (ignoring the original query
    parameters)", otherwise stop; section 5: each page request completes
    before the next is issued; section 7: there is no loop guard.  It
    returns the responses in the order they were fetched. *)
Fixpoint requestWithAuthenticationPaginated (fuel : nat)
    (requestOptions : IRequestOptions) (idx : nat) (po : PaginationOptions)
  : M (list Response) :=
  match fuel with
  | 0 => fun st => (Diverge, st)
  | S fuel' =>
      b <- requestWithAuthentication requestOptions idx ;;
      let response := {| body := b |} in
      more <- resolve (continue po response) ;;
      if (more : bool) then
        url <- resolve (request_url po response) ;;
        rest <- requestWithAuthenticationPaginated fuel'
                  (follow requestOptions url) idx po ;;
        ret (response :: rest)
      else ret [response]
  end.

(** [response.body.results.map((result) => ({ json: result }))] *)
Definition wrap (result : JSON) : INodeExecutionData :=
  {| json := result; binary := None; error := None; pairedItem := None |}.

Definition resultsOf (response : Response) : option (list INodeExecutionData) :=
  match get_prop (body response) "results" with
  | Some (JArr results) => Some (map wrap results)
  | _ => None
  end.

Definition readBranch (pfuel idx : nat) : M unit :=
  let additionalFields := param_additionalFields h idx in
  responseData <-
    requestWithAuthenticationPaginated pfuel
      (readRequestOptions additionalFields) idx paginationOptions ;;
  match flatMap resultsOf responseData with
  | Some items => returnData_push items
  | None => throw (TypeError "Cannot read properties of undefined (reading 'map')")
  end.

(* ---------------------------------------------------------------- *)
(** *** The loop *)

(** The body of the [try]. *)
Definition tryBlock (pfuel idx : nat) : M unit :=
  if Resource_eqb (resource h) Document then
    (if Operation_eqb (operation h) Read then readBranch pfuel idx else ret tt) ;;;
    (if Operation_eqb (operation h) Create then createBranch idx else ret tt)
  else ret tt.

(** [error.context.itemIndex = idx; throw error], or the wrapping
    [NodeOperationError] when the error has no context. *)
Definition rethrown (error : JsError) (idx : nat) : JsError :=
  match err_context error with
  | Some _ =>
      {| err_name := err_name error;
         err_message := err_message error;
         err_context := Some (mkContext (Some idx)) |}
  | None => NodeOperationError error idx
  end.

(** The body of the [catch].  In continue mode the record is built from
    [this.getInputData(idx)[0].json], the first item of input connection
    [idx]; the host raises for an index beyond the connections, reading
    [.json] raises when the array has no first item, and either exception
    leaves [execute]. *)
Definition catchBlock (idx : nat) (error : JsError) : M unit :=
  if continueOnFail h then
    connection <- getInputData idx ;;
    match connection with
    | first :: _ => items_push (errorRecord (json first) error idx)
    | [] => throw handlerError
    end
  else throw (rethrown error idx).

(** [for (let itemIndex = 0; itemIndex < items.length; itemIndex++)]: the
    bound is read again before every iteration. *)
Fixpoint forLoop (pfuel fuel idx : nat) (st : State) : Result unit * State :=
  match fuel with
  | 0 => (Diverge, st)
  | S fuel' =>
      if (idx <? List.length (items st))%nat then
        match tryBlock pfuel idx st with
        | (Ok _, st1) => forLoop pfuel fuel' (S idx) st1
        | (Throw e, st1) =>
            match catchBlock idx e st1 with
            | (Ok _, st2) => forLoop pfuel fuel' (S idx) st2
            | other => other
            end
        | (Diverge, st1) => (Diverge, st1)
        end
      else (Ok tt, st)
  end.

Definition start (inputs : list (list INodeExecutionData)) : State :=
  {| inputData := inputs; returnData := []; sent := [] |}.

(** The node's description declares the parameter [operation] with
    [displayOptions.show.resource = [Resource.Document]]: the host holds a
    value for it only when the resource is the document. *)
Definition operation_declared (r : Resource) : bool := Resource_eqb r Document.

(** What the host's [getNodeParameter] raises for a parameter it holds no
    value of, when the call names no fallback. *)
Definition couldNotGetParameter : JsError :=
  {| err_name := "ApplicationError";
     err_message := "Could not get parameter";
     err_context := None |}.

(** [this.getNodeParameter('operation', 0)], read without a fallback and
    outside the [try]. *)
Definition getNodeParameter_operation : Result Operation :=
  if operation_declared (resource h) then Ok (operation h)
  else Throw couldNotGetParameter.

(** [execute]: the parameters are resolved once, before the loop; then the
    loop runs (its body reads the operation just resolved, [operation h]);
    then [this.prepareOutputData(returnData)] wraps the records as the
    single output of the node. *)
Definition execute (pfuel fuel : nat) (inputs : list (list INodeExecutionData))
  : Result (list (list INodeExecutionData)) * State :=
  match getNodeParameter_operation with
  | Ok _ =>
      match forLoop pfuel fuel 0 (start inputs) with
      | (Ok _, st) => (Ok [returnData st], st)
      | (Throw e, st) => (Throw e, st)
      | (Diverge, st) => (Diverge, st)
      end
  | Throw e => (Throw e, start inputs)
  | Diverge => (Diverge, start inputs)
  end.

End Node.

(* ------------------------------------------------------------------ *)
(** ** Vocabulary of the properties *)

(** HTTP header names are compared without regard to case. *)
Definition lower_ascii (c : ascii) : ascii :=
  let n := nat_of_ascii c in
  if ((65 <=? n) && (n <=? 90))%nat then ascii_of_nat (n + 32) else c.

Fixpoint lower (s : string) : string :=
  match s with
  | EmptyString => EmptyString
  | String c rest => String (lower_ascii c) (lower rest)
  end.

Definition is_authorization (hd : string * string) : bool :=
  String.eqb (lower (fst hd)) "authorization".

(** The request carries [Authorization: Token <token>] and no other
    authorization header. *)
Definition authorized (c : Credentials) (r : IRequestOptions) : Prop :=
  filter is_authorization (headers r)
  = [("Authorization", ("Token " ++ token c)%string)].

(** The requests of the log that were issued for item [idx]. *)
Definition requestsOf (idx : nat) (log : Log) : Log :=
  filter (fun e => Nat.eqb (fst e) idx) log.





(** The loop stands at the head of iteration [idx] in state [st]. *)
Inductive Reachable (h : Host) (pfuel : nat) (inputs : list (list INodeExecutionData))
  : nat -> State -> Prop :=
| Reach_start : Reachable h pfuel inputs 0 (start inputs)
| Reach_ok : forall idx st st1,
    Reachable h pfuel inputs idx st ->
    idx < List.length (items st) ->
    tryBlock h pfuel idx st = (Ok tt, st1) ->
    Reachable h pfuel inputs (S idx) st1
| Reach_caught : forall idx st e st1 st2,
    Reachable h pfuel inputs idx st ->
    idx < List.length (items st) ->
    tryBlock h pfuel idx st = (Throw e, st1) ->
    catchBlock h idx e st1 = (Ok tt, st2) ->
    Reachable h pfuel inputs (S idx) st2.

(** What one iteration can do to the state, seen from iteration [idx]: the
    input store is untouched, requests are only appended to the log, all of
    them tagged [idx] and authorized, and only error-free records are
    appended to [returnData]. *)
Definition grows (h : Host) (idx : nat) (st st' : State) : Prop :=
  inputData st' = inputData st /\
  (exists l, sent st' = sent st ++ l /\
             Forall (fun e => fst e = idx /\ authorized (credentials h) (snd e)) l) /\
  (exists out, returnData st' = returnData st ++ out /\
               Forall (fun r => error r = None) out).

(** The request has no authorization header of its own. *)
Definition unauthenticated (r : IRequestOptions) : Prop :=
  filter is_authorization (headers r) = [].

(* ------------------------------------------------------------------ *)
(** ** Sample runs *)

Module Sample.

Definition creds : Credentials := mkCredentials "https://dms.example" "s3cr3t".

Definition pdf : IBinaryData :=
  mkBinary "JVBERi0xLjQK" "application/pdf" (Some "invoice.pdf") None.

Definition withFile (n : Z) : INodeExecutionData :=
  mkItem (JObj [("n", JNum n)]) (Some [("data", pdf)]) None None.

Definition noFile (n : Z) : INodeExecutionData :=
  mkItem (JObj [("n", JNum n)]) None None None.

(** A remote that accepts every upload with the same task identifier. *)
Definition accepting : Log -> IRequestOptions -> Reply :=
  fun _ _ => Body (JStr "c9d3ab1e-task").

Definition createHost (continue_mode : bool) : Host :=
  mkHost creds Document Create continue_mode
         (fun _ => Some "data") (fun _ => []) accepting.

Definition page1 : JSON :=
  JObj [("count", JNum 3);
        ("next", JStr "https://dms.example/api/documents/?page=2&search=invoice");
        ("results", JArr [JObj [("id", JNum 1)]; JObj [("id", JNum 2)]])].

Definition page2 : JSON :=
  JObj [("count", JNum 3);
        ("next", JNull);
        ("results", JArr [JObj [("id", JNum 3)]])].

(** A mocked remote that replays a list of pages, one per request. *)
Definition replay (pages : list JSON) : Log -> IRequestOptions -> Reply :=
  fun log _ =>
    match nth_error pages (List.length log) with
    | Some p => Body p
    | None => Failure {| err_name := "NodeApiError";
                         err_message := "404 - Not Found";
                         err_context := Some (mkContext None) |}
    end.

Definition readHost (search : list (string * JSON))
    (api : Log -> IRequestOptions -> Reply) : Host :=
  mkHost creds Document Read false (fun _ => None) (fun _ => search) api.

(** A remote whose every page points to a further page. *)
Definition endless : Log -> IRequestOptions -> Reply :=
  fun _ _ => Body page1.

Definition correspondentHost : Host :=
  mkHost creds Correspondent Read false (fun _ => None) (fun _ => []) accepting.

Definition deleteHost : Host :=
  mkHost creds Document Delete false (fun _ => None) (fun _ => []) accepting.

(** Binary data the host keeps outside the item and hands out by reference. *)
Definition scan : IBinaryData :=
  mkBinary "filesystem-v2" "image/png" (Some "scan.png")
           (Some "filesystem-v2:workflows/7/executions/42/binary_data/9f1c").

Definition twoFiles : INodeExecutionData :=
  mkItem (JObj [("n", JNum 5)]) (Some [("data", pdf); ("attachment", scan)]) None None.

(** The [file] parameter names the property [attachment]. *)
Definition attachmentHost : Host :=
  mkHost creds Document Create false (fun _ => Some "attachment") (fun _ => []) accepting.

(** The [file] parameter is not set: the node falls back to [data]. *)
Definition defaultFieldHost : Host :=
  mkHost creds Document Create false (fun _ => None) (fun _ => []) accepting.

End Sample.

(* ------------------------------------------------------------------ *)
(** ** Further vocabulary *)

(** The same execution context under the other continuation policy. *)
Definition with_continueOnFail (b : bool) (h : Host) : Host :=
  {| credentials := credentials h;
     resource := resource h;
     operation := operation h;
     continueOnFail := b;
     param_file := param_file h;
     param_additionalFields := param_additionalFields h;
     remote := remote h |}.

(** The record a successful upload leaves in [returnData]. *)
Definition taskRecord (r : JSON) : INodeExecutionData :=
  wrap (JObj [("task_id", r)]).

(** A log entry is an upload: a POST to the upload endpoint of the host's
    domain. *)
Definition is_upload (h : Host) (q : nat * IRequestOptions) : Prop :=
  method (snd q) = "POST" /\
  uri (snd q) = JStr (domain (credentials h) ++ "/api/documents/post_document/").

(** A log entry is of the kind the selected operation sends: an upload with
    the single form part [document] for Document/Create, a GET without form
    data for Document/Read, and nothing at all for any other combination. *)
Definition fits_operation (h : Host) (q : nat * IRequestOptions) : Prop :=
  match resource h, operation h with
  | Document, Create =>
      is_upload h q /\ exists part, formData (snd q) = [("document", part)]
  | Document, Read => method (snd q) = "GET" /\ formData (snd q) = []
  | _, _ => False
  end.

(** The remote answers by the request alone, whatever it received before. *)
Definition stateless (h : Host) : Prop :=
  forall log log' q, remote h log q = remote h log' q.

(** [n] copies of a list, one after the other. *)
Fixpoint copies {A : Type} (n : nat) (xs : list A) : list A :=
  match n with
  | 0 => []
  | S n' => xs ++ copies n' xs
  end.

(* ------------------------------------------------------------------ *)
(** ** Effects of the helpers *)

Ltac bind_inv H :=
  match type of H with
  | bind ?m _ ?st = _ =>
      let a := fresh "a" in
      let e := fresh "e" in
      let s := fresh "st" in
      let E := fresh "E" in
      unfold bind at 1 in H;
      destruct (m st) as [[a | e | ] s] eqn:E
  end.

Ltac pair_inv H := inversion H; subst; clear H.

Lemma authenticate_authorized (c : Credentials) (r : IRequestOptions) :
  unauthenticated r -> authorized c (PaperlessNgxApi.authenticate c r).
Proof.
  unfold unauthenticated, authorized, PaperlessNgxApi.authenticate; simpl.
  induction (headers r) as [| [k v] hs IH]; simpl; intros Hnone.
  - reflexivity.
  - destruct (is_authorization (k, v)) eqn:Ek; [discriminate |].
    destruct (String.eqb k "Authorization") eqn:Ka.
    + apply String.eqb_eq in Ka; subst k.
      vm_compute in Ek; discriminate.
    + simpl. rewrite Ek. apply IH, Hnone.
Qed.

Lemma grows_refl (h : Host) (idx : nat) (st : State) : grows h idx st st.
Proof.
  repeat split; [exists [] | exists []]; rewrite app_nil_r; auto.
Qed.

Lemma grows_trans (h : Host) (idx : nat) (a b c : State) :
  grows h idx a b -> grows h idx b c -> grows h idx a c.
Proof.
  intros (Hi & (l & Hl & Fl) & (o & Ho & Fo)) (Hi' & (l' & Hl' & Fl') & (o' & Ho' & Fo')).
  repeat split.
  - congruence.
  - exists (l ++ l'); split; [rewrite Hl', Hl, app_assoc; reflexivity |].
    apply Forall_app; auto.
  - exists (o ++ o'); split; [rewrite Ho', Ho, app_assoc; reflexivity |].
    apply Forall_app; auto.
Qed.

Section Effects.

Variable h : Host.

Lemma requestWithAuthentication_sends (r : IRequestOptions) (idx : nat) (st : State) :
  snd (requestWithAuthentication h r idx st)
  = {| inputData := inputData st;
       returnData := returnData st;
       sent := sent st ++ [(idx, PaperlessNgxApi.authenticate (credentials h) r)] |}.
Proof.
  unfold requestWithAuthentication.
  destruct (remote h (sent st) _); reflexivity.
Qed.

Lemma requestWithAuthentication_grows r idx st res st' :
  unauthenticated r ->
  requestWithAuthentication h r idx st = (res, st') ->
  grows h idx st st'.
Proof.
  intros Hr H.
  pose proof (requestWithAuthentication_sends r idx st) as S.
  rewrite H in S; simpl in S; subst st'.
  repeat split; simpl.
  - eexists; split; [reflexivity |].
    constructor; [| constructor].
    split; [reflexivity | apply authenticate_authorized, Hr].
  - exists []; rewrite app_nil_r; auto.
Qed.

Lemma resolve_inv {A : Type} (v : option A) (st : State) res st' :
  resolve v st = (res, st') -> st' = st.
Proof.
  destruct v; simpl; unfold ret, throw; intros H; pair_inv H; reflexivity.
Qed.

Lemma paginated_grows fuel : forall r idx po st res st',
  unauthenticated r ->
  requestWithAuthenticationPaginated h fuel r idx po st = (res, st') ->
  grows h idx st st'.
Proof.
  induction fuel as [| fuel IH]; intros r idx po st res st' Hr H; simpl in H.
  - pair_inv H. apply grows_refl.
  - bind_inv H;
      try (pair_inv H; eapply requestWithAuthentication_grows; eauto; fail).
    apply requestWithAuthentication_grows in E; [| exact Hr].
    bind_inv H; apply resolve_inv in E0; subst;
      try (pair_inv H; exact E; fail).
    destruct a0.
    + bind_inv H; apply resolve_inv in E0; subst;
        try (pair_inv H; exact E; fail).
      bind_inv H.
      * unfold ret in H; pair_inv H.
        eapply grows_trans; [exact E |].
        eapply IH; [| exact E0]. exact Hr.
      * pair_inv H. eapply grows_trans; [exact E |].
        eapply IH; [| exact E0]. exact Hr.
      * pair_inv H. eapply grows_trans; [exact E |].
        eapply IH; [| exact E0]. exact Hr.
    + unfold ret in H; pair_inv H. exact E.
Qed.

Lemma returnData_push_grows idx xs st res st' :
  Forall (fun r => error r = None) xs ->
  returnData_push xs st = (res, st') ->
  grows h idx st st'.
Proof.
  intros Hxs H. unfold returnData_push in H. pair_inv H.
  repeat split; simpl.
  - exists []; rewrite app_nil_r; auto.
  - exists xs; auto.
Qed.

Lemma createBranch_grows idx st res st' :
  createBranch h idx st = (res, st') -> grows h idx st st'.
Proof.
  unfold createBranch. intros H.
  bind_inv H; unfold assertBinaryData in E;
    destruct (binaryOf idx (documentFieldName h idx) st) eqn:B;
    pair_inv E; try (pair_inv H; apply grows_refl).
  bind_inv H; rewrite B in E; pair_inv E.
  bind_inv H;
    (apply requestWithAuthentication_grows in E; [| reflexivity]);
    try (pair_inv H; exact E).
  eapply grows_trans; [exact E |].
  eapply returnData_push_grows; [| exact H].
  repeat constructor.
Qed.

Lemma wrap_clean (results : list JSON) :
  Forall (fun r => error r = None) (map wrap results).
Proof. induction results; simpl; constructor; auto. Qed.

Lemma flatMap_resultsOf_clean (rs : list Response) :
  forall out, flatMap resultsOf rs = Some out ->
              Forall (fun r => error r = None) out.
Proof.
  induction rs as [| r rs IH]; simpl; intros out H.
  - pair_inv H. constructor.
  - unfold resultsOf at 1 in H.
    destruct (get_prop (body r) "results") as [[ | | | | | results | ] |];
      try discriminate.
    destruct (flatMap resultsOf rs); [| discriminate].
    pair_inv H. apply Forall_app; split; [apply wrap_clean | auto].
Qed.

Lemma readBranch_grows pfuel idx st res st' :
  readBranch h pfuel idx st = (res, st') -> grows h idx st st'.
Proof.
  unfold readBranch. intros H.
  bind_inv H;
    (apply paginated_grows in E; [| reflexivity]);
    try (pair_inv H; exact E).
  destruct (flatMap resultsOf a) eqn:F.
  - eapply grows_trans; [exact E |].
    eapply returnData_push_grows; [| exact H].
    eapply flatMap_resultsOf_clean; eauto.
  - unfold throw in H; pair_inv H. exact E.
Qed.

Lemma readGuard_grows pfuel idx st res st' :
  (if Operation_eqb (operation h) Read then readBranch h pfuel idx else ret tt) st
  = (res, st') ->
  grows h idx st st'.
Proof.
  destruct (Operation_eqb (operation h) Read); intros H.
  - eapply readBranch_grows; eauto.
  - unfold ret in H; pair_inv H; apply grows_refl.
Qed.

Lemma tryBlock_grows pfuel idx st res st' :
  tryBlock h pfuel idx st = (res, st') -> grows h idx st st'.
Proof.
  unfold tryBlock. intros H.
  destruct (Resource_eqb (resource h) Document);
    [| unfold ret in H; pair_inv H; apply grows_refl].
  bind_inv H; apply readGuard_grows in E; try (pair_inv H; exact E).
  eapply grows_trans; [exact E |].
  destruct (Operation_eqb (operation h) Create).
  - eapply createBranch_grows; eauto.
  - unfold ret in H; pair_inv H; apply grows_refl.
Qed.

(** The [catch] block in continue mode either appends one error record to
    the item array of connection 0 or raises; it never touches
    [returnData] or the log. *)
Lemma catchBlock_continue (idx : nat) (e : JsError) (st : State) :
  continueOnFail h = true ->
  catchBlock h idx e st
  = if (List.length (inputData st) <? idx)%nat
    then (Throw inputIndexError, st)
    else match nth idx (inputData st) [] with
         | first :: _ => items_push (errorRecord (json first) e idx) st
         | [] => (Throw handlerError, st)
         end.
Proof.
  intros Hc. unfold catchBlock. rewrite Hc.
  unfold bind, getInputData, throw.
  destruct (List.length (inputData st) <? idx)%nat; [reflexivity |].
  destruct (nth idx (inputData st) []); reflexivity.
Qed.

Lemma nth_cons_inside {A : Type} (l : list (list A)) (k : nat) (x : A) (xs : list A) :
  nth k l [] = x :: xs -> k < List.length l /\ nth_error l k = Some (x :: xs).
Proof.
  intros Hn.
  assert (Hlt : k < List.length l).
  { destruct (Nat.lt_ge_cases k (List.length l)) as [Hlt | Hge]; [exact Hlt |].
    rewrite (nth_overflow l [] Hge) in Hn. discriminate. }
  split; [exact Hlt |].
  rewrite (nth_error_nth' l [] Hlt), Hn. reflexivity.
Qed.

Lemma catchBlock_ok idx e st st2 :
  catchBlock h idx e st = (Ok tt, st2) ->
  continueOnFail h = true /\
  returnData st2 = returnData st /\ sent st2 = sent st /\
  List.length (inputData st2) = List.length (inputData st) /\
  exists first rest,
    nth_error (inputData st) idx = Some (first :: rest) /\
    (inputData st <> [] -> items st2 = items st ++ [errorRecord (json first) e idx]).
Proof.
  destruct (continueOnFail h) eqn:Hc;
    [| unfold catchBlock; rewrite Hc; discriminate].
  rewrite (catchBlock_continue idx e st Hc).
  destruct (List.length (inputData st) <? idx)%nat; [discriminate |].
  destruct (nth idx (inputData st) []) as [| first rest] eqn:G; [discriminate |].
  apply nth_cons_inside in G. destruct G as [_ G].
  unfold items_push. intros H; pair_inv H; simpl.
  repeat split; auto.
  - destruct (inputData st); reflexivity.
  - exists first, rest. split; [exact G |].
    unfold items; simpl. destruct (inputData st); [congruence | reflexivity].
Qed.

Lemma catchBlock_never_diverges idx e st st2 :
  catchBlock h idx e st <> (Diverge, st2).
Proof.
  destruct (continueOnFail h) eqn:Hc.
  - rewrite (catchBlock_continue idx e st Hc). unfold items_push.
    destruct (List.length (inputData st) <? idx)%nat; [discriminate |].
    destruct (nth idx (inputData st) []); discriminate.
  - unfold catchBlock, throw. rewrite Hc. discriminate.
Qed.

Variable pfuel : nat.
Variable inputs : list (list INodeExecutionData).

(** Before iteration [idx] every request in the log belongs to an earlier
    item and is authorized, and [returnData] holds no error record. *)
Lemma Reachable_invariant idx st :
  Reachable h pfuel inputs idx st ->
  Forall (fun e => fst e < idx /\ authorized (credentials h) (snd e)) (sent st) /\
  Forall (fun r => error r = None) (returnData st).
Proof.
  induction 1 as [| idx st st1 _ IH Hlt Ht | idx st e st1 st2 _ IH Hlt Ht Hc].
  - split; constructor.
  - apply tryBlock_grows in Ht. destruct Ht as (_ & (l & Hl & Fl) & (o & Ho & Fo)).
    destruct IH as [IHs IHr]. rewrite Hl, Ho. split; apply Forall_app; split; auto.
    + eapply Forall_impl; [| exact IHs]. intros a [? ?]; split; [lia | auto].
    + eapply Forall_impl; [| exact Fl]. intros a [? ?]; split; [lia | auto].
  - apply tryBlock_grows in Ht. destruct Ht as (_ & (l & Hl & Fl) & (o & Ho & Fo)).
    apply catchBlock_ok in Hc. destruct Hc as (_ & Hr & Hs & _).
    destruct IH as [IHs IHr]. rewrite Hr, Hs, Hl, Ho.
    split; apply Forall_app; split; auto.
    + eapply Forall_impl; [| exact IHs]. intros a [? ?]; split; [lia | auto].
    + eapply Forall_impl; [| exact Fl]. intros a [? ?]; split; [lia | auto].
Qed.

(** The loop started at 0 runs through every reachable loop head. *)
Lemma forLoop_Reachable idx st :
  Reachable h pfuel inputs idx st ->
  forall k, forLoop h pfuel (idx + k) 0 (start inputs) = forLoop h pfuel k idx st.
Proof.
  induction 1 as [| idx st st1 _ IH Hlt Ht | idx st e st1 st2 _ IH Hlt Ht Hc];
    intros k.
  - reflexivity.
  - replace (S idx + k) with (idx + S k) by lia.
    rewrite IH. simpl.
    apply Nat.ltb_lt in Hlt. rewrite Hlt, Ht. reflexivity.
  - replace (S idx + k) with (idx + S k) by lia.
    rewrite IH. simpl.
    apply Nat.ltb_lt in Hlt. rewrite Hlt, Ht, Hc. reflexivity.
Qed.

End Effects.

(** [execute] past the parameter reads, and [execute] stopped by them. *)
Lemma execute_document (h : Host) (pfuel fuel : nat)
    (inputs : list (list INodeExecutionData)) :
  resource h = Document ->
  execute h pfuel fuel inputs
  = match forLoop h pfuel fuel 0 (start inputs) with
    | (Ok _, st) => (Ok [returnData st], st)
    | (Throw e, st) => (Throw e, st)
    | (Diverge, st) => (Diverge, st)
    end.
Proof.
  intros Hres. unfold execute, getNodeParameter_operation, operation_declared.
  rewrite Hres. reflexivity.
Qed.

Lemma execute_undeclared (h : Host) (pfuel fuel : nat)
    (inputs : list (list INodeExecutionData)) :
  resource h <> Document ->
  execute h pfuel fuel inputs = (Throw couldNotGetParameter, start inputs).
Proof.
  intros Hres. unfold execute, getNodeParameter_operation, operation_declared.
  destruct (resource h); try reflexivity. congruence.
Qed.

Lemma tryBlock_undeclared (h : Host) (pfuel idx : nat) (st : State) :
  resource h <> Document -> tryBlock h pfuel idx st = (Ok tt, st).
Proof.
  intros Hres. unfold tryBlock. destruct (resource h); try reflexivity. congruence.
Qed.

Lemma Resource_eq_dec (r : Resource) : r = Document \/ r <> Document.
Proof. destruct r; [right | right | left]; congruence. Qed.

(* ------------------------------------------------------------------ *)
(** ** Document / Create *)

(** C3: a Create on an item that has a binary attachment under the
    configured field name (the [file] parameter, [data] when it is not set),
    answered by the remote with [r], sends exactly one request: the POST to
    [{domain}/api/documents/post_document/] with the authorization header,
    whose form data is the single part [document]; the part carries the
    attachment's payload (the stream of its [id] when it has a non-empty
    one, the buffer of its base64 [data] otherwise) with the attachment's
    file name and MIME type; and the iteration appends exactly one record
    [{ json: { task_id: r } }]. *)
Theorem create_uploads_once (h : Host) (pfuel idx : nat) (st : State)
    (name : string) (it : INodeExecutionData)
    (props : list (string * IBinaryData)) (b : IBinaryData) (r : JSON) :
  resource h = Document ->
  operation h = Create ->
  name = match param_file h idx with Some s => s | None => "data" end ->
  nth_error (nth 0 (inputData st) []) idx = Some it ->
  binary it = Some props ->
  obj_get props name = Some b ->
  let payload :=
    match id b with
    | Some ref => if String.eqb ref "" then BufferFrom (data b) "base64"
                  else BinaryStream ref
    | None => BufferFrom (data b) "base64"
    end in
  let wire :=
    {| method := "POST";
       uri := JStr (domain (credentials h) ++ "/api/documents/post_document/");
       headers := [("Authorization", ("Token " ++ token (credentials h))%string)];
       qs := [];
       formData := [("document",
                     {| value := payload;
                        filename := fileName b;
                        contentType := mimeType b |})];
       json_flag := true |} in
  remote h (sent st) wire = Body r ->
  tryBlock h pfuel idx st
  = (Ok tt,
     {| inputData := inputData st;
        returnData := returnData st
                      ++ [ {| json := JObj [("task_id", r)];
                              binary := None; error := None; pairedItem := None |} ];
        sent := sent st ++ [(idx, wire)] |}).
Proof.
  intros Hres Hop Hname Hit Hprops Hget payload wire Hr.
  assert (Hb : binaryOf idx (documentFieldName h idx) st = Some b).
  { unfold binaryOf, items, documentFieldName. rewrite <- Hname, Hit, Hprops. exact Hget. }
  change (remote h (sent st)
            (PaperlessNgxApi.authenticate (credentials h) (createRequestOptions h b b))
          = Body r) in Hr.
  unfold tryBlock. rewrite Hres, Hop. simpl.
  unfold bind at 1. unfold ret at 1.
  unfold createBranch, bind, assertBinaryData.
  rewrite Hb. cbv beta iota. rewrite Hb. cbv beta iota.
  unfold requestWithAuthentication. cbv beta zeta. rewrite Hr.
  reflexivity.
Qed.

Lemma create_uploads_once_witness :
  tryBlock Sample.attachmentHost 0 1 (start [[Sample.withFile 7; Sample.twoFiles]])
  = (Ok tt,
     {| inputData := [[Sample.withFile 7; Sample.twoFiles]];
        returnData := [ {| json := JObj [("task_id", JStr "c9d3ab1e-task")];
                           binary := None; error := None; pairedItem := None |} ];
        sent := [(1,
                  {| method := "POST";
                     uri := JStr "https://dms.example/api/documents/post_document/";
                     headers := [("Authorization", "Token s3cr3t")];
                     qs := [];
                     formData :=
                       [("document",
                         {| value := BinaryStream
                              "filesystem-v2:workflows/7/executions/42/binary_data/9f1c";
                            filename := Some "scan.png";
                            contentType := "image/png" |})];
                     json_flag := true |})] |}) /\
  tryBlock Sample.defaultFieldHost 0 0 (start [[Sample.twoFiles]])
  = (Ok tt,
     {| inputData := [[Sample.twoFiles]];
        returnData := [ {| json := JObj [("task_id", JStr "c9d3ab1e-task")];
                           binary := None; error := None; pairedItem := None |} ];
        sent := [(0,
                  {| method := "POST";
                     uri := JStr "https://dms.example/api/documents/post_document/";
                     headers := [("Authorization", "Token s3cr3t")];
                     qs := [];
                     formData :=
                       [("document",
                         {| value := BufferFrom "JVBERi0xLjQK" "base64";
                            filename := Some "invoice.pdf";
                            contentType := "application/pdf" |})];
                     json_flag := true |})] |}).
Proof.
  split.
  - exact (create_uploads_once Sample.attachmentHost 0 1
             (start [[Sample.withFile 7; Sample.twoFiles]])
             "attachment" Sample.twoFiles
             [("data", Sample.pdf); ("attachment", Sample.scan)] Sample.scan
             (JStr "c9d3ab1e-task")
             eq_refl eq_refl eq_refl eq_refl eq_refl eq_refl eq_refl).
  - exact (create_uploads_once Sample.defaultFieldHost 0 0
             (start [[Sample.twoFiles]])
             "data" Sample.twoFiles
             [("data", Sample.pdf); ("attachment", Sample.scan)] Sample.pdf
             (JStr "c9d3ab1e-task")
             eq_refl eq_refl eq_refl eq_refl eq_refl eq_refl eq_refl).
Defined.

(** C4: a Create on an item without a binary attachment under the configured
    field name raises the missing-binary error and leaves the state as it
    was: no request is sent, and the log holds no request for that item. *)
Theorem create_without_binary_sends_nothing (h : Host) (pfuel : nat)
    (inputs : list (list INodeExecutionData)) (idx : nat) (st : State) :
  resource h = Document ->
  operation h = Create ->
  Reachable h pfuel inputs idx st ->
  binaryOf idx (documentFieldName h idx) st = None ->
  tryBlock h pfuel idx st
  = (Throw (missingBinaryError idx (documentFieldName h idx)), st) /\
  requestsOf idx (sent st) = [] /\
  List.length (requestsOf idx (sent (snd (tryBlock h pfuel idx st)))) = 0.
Proof.
  intros Hres Hop Hreach Hb.
  assert (Ht : tryBlock h pfuel idx st
               = (Throw (missingBinaryError idx (documentFieldName h idx)), st)).
  { unfold tryBlock. rewrite Hres, Hop. simpl.
    unfold bind at 1. unfold ret at 1.
    unfold createBranch, bind, assertBinaryData. rewrite Hb. reflexivity. }
  assert (Hnone : requestsOf idx (sent st) = []).
  { apply Reachable_invariant in Hreach. destruct Hreach as [Hs _].
    unfold requestsOf. induction Hs as [| a l [Hlt _] _ IH]; simpl; auto.
    destruct (Nat.eqb_spec (fst a) idx); [lia | exact IH]. }
  rewrite Ht. simpl. rewrite Hnone. auto.
Qed.

Lemma create_without_binary_sends_nothing_witness :
  tryBlock (Sample.createHost true) 0 1
           (snd (tryBlock (Sample.createHost true) 0 0
                   (start [[Sample.withFile 1; Sample.noFile 2; Sample.withFile 3]])))
  = (Throw (missingBinaryError 1 "data"),
     snd (tryBlock (Sample.createHost true) 0 0
            (start [[Sample.withFile 1; Sample.noFile 2; Sample.withFile 3]]))).
Proof.
  refine (proj1 (create_without_binary_sends_nothing
                   (Sample.createHost true) 0
                   [[Sample.withFile 1; Sample.noFile 2; Sample.withFile 3]]
                   1
                   (snd (tryBlock (Sample.createHost true) 0 0
                           (start [[Sample.withFile 1; Sample.noFile 2;
                                    Sample.withFile 3]])))
                   eq_refl eq_refl _ eq_refl)).
  eapply Reach_ok; [apply Reach_start | simpl; lia | reflexivity].
Defined.

(* ------------------------------------------------------------------ *)
(** ** Combinations without an implementation *)

Lemma forLoop_skip (h : Host) (pfuel : nat) :
  (forall idx st, tryBlock h pfuel idx st = (Ok tt, st)) ->
  forall fuel idx st,
    List.length (items st) - idx < fuel ->
    forLoop h pfuel fuel idx st = (Ok tt, st).
Proof.
  intros Hskip. induction fuel as [| fuel IH]; intros idx st Hlt; [lia |].
  simpl. destruct (Nat.ltb_spec idx (List.length (items st))); [| reflexivity].
  rewrite Hskip. apply IH. lia.
Qed.

(** C8, as stated, fails for the resources without operations: with the
    correspondent selected the run does not pass unnoticed, it ends in the
    host's error for the parameter [operation], which the description
    declares for the document only. *)
Lemma correspondent_run_is_observable :
  execute Sample.correspondentHost 3 4
          [[Sample.withFile 1; Sample.noFile 2; Sample.withFile 3]]
  = (Throw couldNotGetParameter,
     start [[Sample.withFile 1; Sample.noFile 2; Sample.withFile 3]]) /\
  fst (execute Sample.correspondentHost 3 4
         [[Sample.withFile 1; Sample.noFile 2; Sample.withFile 3]])
  <> Ok [[]].
Proof. split; [reflexivity | discriminate]. Qed.

(** C8, amended: for Document with Update or Delete an iteration changes
    nothing (no request, no record) and the run returns an empty output
    with an empty log; for Correspondent and DocumentType, with any
    operation, a run sends no request, produces no record and leaves its
    input alone. *)
Theorem inert_combinations_do_nothing (h : Host) (pfuel : nat)
    (inputs : list (list INodeExecutionData)) :
  (resource h = Document /\ (operation h = Update \/ operation h = Delete) ->
   (forall idx st, tryBlock h pfuel idx st = (Ok tt, st)) /\
   (forall fuel, List.length (items (start inputs)) < fuel ->
                 execute h pfuel fuel inputs = (Ok [[]], start inputs))) /\
  (resource h = Correspondent \/ resource h = DocumentType ->
   forall fuel,
     sent (snd (execute h pfuel fuel inputs)) = [] /\
     returnData (snd (execute h pfuel fuel inputs)) = [] /\
     inputData (snd (execute h pfuel fuel inputs)) = inputs).
Proof.
  split.
  - intros [Hres Hop].
    assert (Hskip : forall idx st, tryBlock h pfuel idx st = (Ok tt, st)).
    { intros idx st. unfold tryBlock. rewrite Hres.
      destruct Hop as [Ho | Ho]; rewrite Ho; reflexivity. }
    split; [exact Hskip |].
    intros fuel Hfuel. rewrite execute_document by exact Hres.
    rewrite (forLoop_skip h pfuel Hskip); [reflexivity | lia].
  - intros Hres fuel.
    rewrite execute_undeclared; [repeat split |].
    destruct Hres as [Hr | Hr]; rewrite Hr; discriminate.
Qed.

Lemma inert_combinations_do_nothing_witness :
  execute Sample.deleteHost 3 4
          [[Sample.withFile 1; Sample.noFile 2; Sample.withFile 3]]
  = (Ok [[]], start [[Sample.withFile 1; Sample.noFile 2; Sample.withFile 3]]) /\
  sent (snd (execute Sample.correspondentHost 3 4 [[Sample.withFile 1]])) = [].
Proof.
  split.
  - apply (proj2 (proj1 (inert_combinations_do_nothing Sample.deleteHost 3
                           [[Sample.withFile 1; Sample.noFile 2; Sample.withFile 3]])
                    (conj eq_refl (or_intror eq_refl)))).
    simpl. lia.
  - exact (proj1 (proj2 (inert_combinations_do_nothing Sample.correspondentHost 3
                           [[Sample.withFile 1]])
                    (or_introl eq_refl) 4)).
Defined.

(* ------------------------------------------------------------------ *)
(** ** Abort mode *)

Lemma Reachable_abort_inputs (h : Host) (pfuel : nat)
    (inputs : list (list INodeExecutionData)) (idx : nat) (st : State) :
  continueOnFail h = false ->
  Reachable h pfuel inputs idx st ->
  inputData st = inputs.
Proof.
  intros Habort. induction 1 as [| idx st st1 _ IH Hlt Ht | idx st e st1 st2 _ IH Hlt Ht Hc].
  - reflexivity.
  - apply tryBlock_grows in Ht. destruct Ht as [Hi _]. congruence.
  - apply catchBlock_ok in Hc. destruct Hc as [Hc _]. congruence.
Qed.

Lemma rethrown_index (e : JsError) (idx : nat) :
  err_context (rethrown e idx) = Some (mkContext (Some idx)) /\
  err_message (rethrown e idx) = err_message e.
Proof. unfold rethrown. destruct (err_context e); split; reflexivity. Qed.

(** C5: in abort mode, when the items before [idx] were processed and the
    iteration of item [idx] raises [e], [execute] raises at once: the error
    is [e] with the item index [idx] attached, the final state is the state
    in which the failing iteration stopped, the log holds no request of a
    later item, the input list is as it was given, and nothing is returned. *)
Theorem abort_halts_at_first_error (h : Host) (pfuel : nat)
    (inputs : list (list INodeExecutionData)) (idx : nat) (st st1 : State)
    (e : JsError) (fuel : nat) :
  continueOnFail h = false ->
  Reachable h pfuel inputs idx st ->
  idx < List.length (items st) ->
  tryBlock h pfuel idx st = (Throw e, st1) ->
  idx < fuel ->
  execute h pfuel fuel inputs = (Throw (rethrown e idx), st1) /\
  err_context (rethrown e idx) = Some (mkContext (Some idx)) /\
  err_message (rethrown e idx) = err_message e /\
  Forall (fun q => fst q <= idx) (sent st1) /\
  inputData st1 = inputs.
Proof.
  intros Habort Hreach Hlt Ht Hfuel.
  destruct (rethrown_index e idx) as [Hctx Hmsg].
  split; [| split; [exact Hctx | split; [exact Hmsg | split]]].
  - assert (Hres : resource h = Document).
    { destruct (Resource_eq_dec (resource h)) as [Hd | Hd]; [exact Hd |].
      rewrite (tryBlock_undeclared h pfuel idx st Hd) in Ht. discriminate. }
    rewrite execute_document by exact Hres.
    replace fuel with (idx + S (fuel - idx - 1)) by lia.
    rewrite (forLoop_Reachable h pfuel inputs idx st Hreach). simpl.
    apply Nat.ltb_lt in Hlt. rewrite Hlt, Ht.
    unfold catchBlock. rewrite Habort. reflexivity.
  - apply Reachable_invariant in Hreach. destruct Hreach as [Hs _].
    apply tryBlock_grows in Ht. destruct Ht as (_ & (l & Hl & Fl) & _).
    rewrite Hl. apply Forall_app; split.
    + eapply Forall_impl; [| exact Hs]. intros a [? _]; lia.
    + eapply Forall_impl; [| exact Fl]. intros a [? _]; lia.
  - apply tryBlock_grows in Ht. destruct Ht as [Hi _].
    rewrite Hi. eapply Reachable_abort_inputs; eauto.
Qed.

Lemma abort_halts_at_first_error_witness :
  execute (Sample.createHost false) 0 5
          [[Sample.withFile 1; Sample.noFile 2; Sample.withFile 3]]
  = (Throw (rethrown (missingBinaryError 1 "data") 1),
     snd (tryBlock (Sample.createHost false) 0 0
            (start [[Sample.withFile 1; Sample.noFile 2; Sample.withFile 3]]))).
Proof.
  refine (proj1 (abort_halts_at_first_error
                   (Sample.createHost false) 0
                   [[Sample.withFile 1; Sample.noFile 2; Sample.withFile 3]]
                   1
                   (snd (tryBlock (Sample.createHost false) 0 0
                           (start [[Sample.withFile 1; Sample.noFile 2;
                                    Sample.withFile 3]])))
                   _ (missingBinaryError 1 "data") 5
                   eq_refl _ _ eq_refl _)).
  - eapply Reach_ok; [apply Reach_start | simpl; lia | reflexivity].
  - simpl; lia.
  - lia.
Defined.

(* ------------------------------------------------------------------ *)
(** ** Document / Read *)

Section Pagination.

Variable h : Host.






(** On a remote whose every answer is a body with a non-null [next], the
    pagination uses up any amount of fuel, one request per unit. *)
Lemma paginated_endless :
  (forall log q, exists b v,
      remote h log q = Body b /\ get_prop b "next" = Some v /\ v <> JNull) ->
  forall fuel r idx st,
  exists st',
    requestWithAuthenticationPaginated h fuel r idx paginationOptions st
    = (Diverge, st') /\
    List.length (sent st') = List.length (sent st) + fuel /\
    returnData st' = returnData st.
Proof.
  intros Hnever. induction fuel as [| fuel IH]; intros r idx st.
  - exists st. simpl. repeat split. lia.
  - cbn [requestWithAuthenticationPaginated].
    unfold bind at 1. unfold requestWithAuthentication at 1. cbv zeta.
    destruct (Hnever (sent st) (PaperlessNgxApi.authenticate (credentials h) r))
      as (b & v & Hb & Hv & Hnn).
    rewrite Hb.
    unfold paginationOptions at 1. cbn [continue body]. rewrite Hv.
    assert (Ht : not_null v = true) by (destruct v; auto; congruence).
    rewrite Ht. cbn [resolve]. unfold bind at 1. unfold ret at 1.
    unfold paginationOptions at 1. cbn [request_url body]. rewrite Hv.
    cbn [resolve]. unfold bind at 1. unfold ret at 1.
    unfold bind at 1.
    match goal with
    | |- context [requestWithAuthenticationPaginated h fuel ?r' idx paginationOptions ?s] =>
        destruct (IH r' idx s) as (st' & Hrun & Hlen & Hret)
    end.
    rewrite Hrun. exists st'. repeat split.
    + rewrite Hlen. cbn [sent]. rewrite length_app. simpl. lia.
    + rewrite Hret. reflexivity.
Qed.

(** When the pagination returns, the last response it fetched has
    [next = null], and it sent one request per response. *)
Lemma paginated_returns : forall fuel r idx st rs st',
  requestWithAuthenticationPaginated h fuel r idx paginationOptions st = (Ok rs, st') ->
  (exists front final, rs = front ++ [final] /\
                       get_prop (body final) "next" = Some JNull) /\
  List.length (sent st') = List.length (sent st) + List.length rs.
Proof.
  induction fuel as [| fuel IH]; intros r idx st rs st' H; [discriminate |].
  cbn [requestWithAuthenticationPaginated] in H.
  bind_inv H; try discriminate.
  pose proof (requestWithAuthentication_sends h r idx st) as Hs.
  rewrite E in Hs. cbn [snd] in Hs.
  apply (f_equal (fun s => List.length (sent s))) in Hs.
  cbn [sent] in Hs. rewrite length_app in Hs. cbn [List.length] in Hs.
  unfold paginationOptions at 1 in H. cbn [continue body] in H.
  destruct (get_prop a "next") as [v |] eqn:Hv; [| discriminate].
  cbn [resolve] in H. unfold bind at 1 in H. unfold ret at 1 in H.
  destruct (not_null v) eqn:Hnn.
  - unfold paginationOptions at 1 in H. cbn [request_url body] in H.
    rewrite Hv in H. cbn [resolve] in H. unfold bind at 1 in H. unfold ret at 1 in H.
    bind_inv H; try discriminate.
    unfold ret in H. pair_inv H.
    apply IH in E0. destruct E0 as [(front & final & Hrs & Hnull) Hlen].
    split.
    + exists ({| body := a |} :: front), final. rewrite Hrs. split; [reflexivity | exact Hnull].
    + rewrite Hlen, Hs. simpl. lia.
  - unfold ret in H. pair_inv H. split.
    + exists [], {| body := a |}. split; [reflexivity |].
      cbn [body]. destruct v; try discriminate. exact Hv.
    + rewrite Hs. simpl. lia.
Qed.


End Pagination.

Lemma tryBlock_read (h : Host) (pfuel idx : nat) (st : State) :
  resource h = Document ->
  operation h = Read ->
  tryBlock h pfuel idx st = bind (readBranch h pfuel idx) (fun _ => ret tt) st.
Proof. intros Hres Hop. unfold tryBlock. rewrite Hres, Hop. reflexivity. Qed.






(** C9: the pagination of a Read has no bound of its own.  On a remote whose
    every answer has a non-null [next], the iteration is still running after
    any number of requests, and so is [execute] on a non-empty input; and
    whenever a pagination does return, the last page it fetched had
    [next = null]. *)
Theorem pagination_has_no_bound (h : Host) :
  resource h = Document ->
  operation h = Read ->
  ((forall log q, exists b v,
       remote h log q = Body b /\ get_prop b "next" = Some v /\ v <> JNull) ->
   (forall pfuel idx st, exists st',
       tryBlock h pfuel idx st = (Diverge, st') /\
       List.length (sent st') = List.length (sent st) + pfuel) /\
   (forall pfuel fuel it its others,
       fst (execute h pfuel (S fuel) ((it :: its) :: others)) = Diverge)) /\
  (forall fuel r idx st rs st',
      requestWithAuthenticationPaginated h fuel r idx paginationOptions st = (Ok rs, st') ->
      exists front final,
        rs = front ++ [final] /\ get_prop (body final) "next" = Some JNull).
Proof.
  intros Hres Hop. split.
  - intros Hnever.
    assert (Hrun : forall pfuel idx st, exists st',
               tryBlock h pfuel idx st = (Diverge, st') /\
               List.length (sent st') = List.length (sent st) + pfuel).
    { intros pfuel idx st.
      destruct (paginated_endless h Hnever pfuel
                  (readRequestOptions h (param_additionalFields h idx)) idx st)
        as (st' & Hp & Hlen & _).
      exists st'. split; [| exact Hlen].
      rewrite tryBlock_read by assumption.
      unfold bind at 1. unfold readBranch. unfold bind at 1.
      rewrite Hp. reflexivity. }
    split; [exact Hrun |].
    intros pfuel fuel it its others.
    rewrite execute_document by exact Hres. cbn [forLoop].
    destruct (Hrun pfuel 0 (start ((it :: its) :: others))) as (st' & Ht & _).
    cbn [items start inputData nth List.length Nat.ltb Nat.leb].
    rewrite Ht. reflexivity.
  - intros fuel r idx st rs st' Hp.
    apply (paginated_returns h fuel r idx st rs st' Hp).
Qed.

Lemma pagination_has_no_bound_witness :
  fst (execute (Sample.readHost [] Sample.endless) 50 1 [[Sample.noFile 1]]) = Diverge.
Proof.
  refine (proj2 (proj1 (pagination_has_no_bound (Sample.readHost [] Sample.endless)
                          eq_refl eq_refl) _) 50 0 (Sample.noFile 1) [] []).
  intros log q. exists Sample.page1. eexists.
  split; [reflexivity | split; [reflexivity | discriminate]].
Defined.

(* ------------------------------------------------------------------ *)
(** ** Authentication *)

Lemma catchBlock_frame (h : Host) (idx : nat) (e : JsError) (st : State) res st2 :
  catchBlock h idx e st = (res, st2) ->
  sent st2 = sent st /\ returnData st2 = returnData st /\
  List.length (inputData st2) = List.length (inputData st).
Proof.
  destruct (continueOnFail h) eqn:Hc.
  - rewrite (catchBlock_continue h idx e st Hc). unfold items_push.
    destruct (List.length (inputData st) <? idx)%nat; [intros H; pair_inv H; auto |].
    destruct (nth idx (inputData st) []); intros H; pair_inv H; simpl; auto.
    destruct (inputData st); auto.
  - unfold catchBlock, throw. rewrite Hc. intros H; pair_inv H; auto.
Qed.

Lemma forLoop_authorized (h : Host) (pfuel : nat) : forall fuel idx st res st',
  Forall (fun q => authorized (credentials h) (snd q)) (sent st) ->
  forLoop h pfuel fuel idx st = (res, st') ->
  Forall (fun q => authorized (credentials h) (snd q)) (sent st').
Proof.
  induction fuel as [| fuel IH]; intros idx st res st' Hst H; simpl in H.
  - pair_inv H. exact Hst.
  - destruct (idx <? List.length (items st))%nat; [| pair_inv H; exact Hst].
    destruct (tryBlock h pfuel idx st) as [r1 st1] eqn:Ht.
    assert (H1 : Forall (fun q => authorized (credentials h) (snd q)) (sent st1)).
    { apply tryBlock_grows in Ht. destruct Ht as (_ & (l & Hl & Fl) & _).
      rewrite Hl. apply Forall_app; split; [exact Hst |].
      eapply Forall_impl; [| exact Fl]. intros a [_ Ha]; exact Ha. }
    destruct r1 as [[] | e |].
    + eapply IH; eauto.
    + destruct (catchBlock h idx e st1) as [r2 st2] eqn:Hc.
      apply catchBlock_frame in Hc. destruct Hc as (Hs & _).
      assert (H2 : Forall (fun q => authorized (credentials h) (snd q)) (sent st2))
        by (rewrite Hs; exact H1).
      destruct r2 as [[] | e2 |]; try (pair_inv H; exact H2).
      eapply IH; eauto.
    + pair_inv H. exact H1.
Qed.

(** C6: every request that a run sends, whatever the inputs and however far
    the run gets, has exactly one authorization header, [Authorization:
    Token <token>]; so has the credential test request once the credential
    type's [authenticate] is applied to it. *)
Theorem every_request_is_authorized (h : Host) (pfuel fuel : nat)
    (inputs : list (list INodeExecutionData)) :
  Forall (fun q => authorized (credentials h) (snd q))
         (sent (snd (execute h pfuel fuel inputs))) /\
  authorized (credentials h)
             (PaperlessNgxApi.authenticate (credentials h)
                                           (PaperlessNgxApi.test (credentials h))).
Proof.
  split.
  - destruct (Resource_eq_dec (resource h)) as [Hres | Hres].
    + rewrite execute_document by exact Hres.
      destruct (forLoop h pfuel fuel 0 (start inputs)) as [res st'] eqn:H.
      apply forLoop_authorized in H; [| constructor].
      destruct res; exact H.
    + rewrite execute_undeclared by exact Hres. constructor.
  - apply authenticate_authorized. reflexivity.
Qed.

(* ------------------------------------------------------------------ *)
(** ** Continue mode *)

Lemma tryBlock_create (h : Host) (pfuel idx : nat) (st : State) :
  resource h = Document ->
  operation h = Create ->
  tryBlock h pfuel idx st = createBranch h idx st.
Proof. intros Hres Hop. unfold tryBlock. rewrite Hres, Hop. reflexivity. Qed.

Lemma createBranch_missing (h : Host) (idx : nat) (st : State) :
  binaryOf idx (documentFieldName h idx) st = None ->
  createBranch h idx st = (Throw (missingBinaryError idx (documentFieldName h idx)), st).
Proof.
  intros Hb. unfold createBranch, bind, assertBinaryData. rewrite Hb. reflexivity.
Qed.

Lemma createBranch_total (h : Host) (idx : nat) (st st' : State) :
  createBranch h idx st <> (Diverge, st').
Proof.
  unfold createBranch. intros H.
  bind_inv H; unfold assertBinaryData in E;
    destruct (binaryOf idx (documentFieldName h idx) st) eqn:B;
    pair_inv E; try discriminate.
  bind_inv H; rewrite B in E; pair_inv E.
  bind_inv H; try discriminate.
  unfold requestWithAuthentication in E.
  destruct (remote h (sent st) _); discriminate.
Qed.

Lemma binaryOf_inputData (idx : nat) (name : string) (st st' : State) :
  inputData st' = inputData st ->
  binaryOf idx name st' = binaryOf idx name st.
Proof. intros H. unfold binaryOf, items. rewrite H. reflexivity. Qed.

Lemma Reachable_connections (h : Host) (pfuel : nat)
    (inputs : list (list INodeExecutionData)) (idx : nat) (st : State) :
  Reachable h pfuel inputs idx st ->
  List.length (inputData st) = List.length inputs.
Proof.
  induction 1 as [| idx st st1 _ IH Hlt Ht | idx st e st1 st2 _ IH Hlt Ht Hc].
  - reflexivity.
  - apply tryBlock_grows in Ht. destruct Ht as [Hi _]. congruence.
  - apply tryBlock_grows in Ht. destruct Ht as [Hi _].
    apply catchBlock_frame in Hc. destruct Hc as (_ & _ & Hc). congruence.
Qed.


(** C1: the run of the specification's scenario.  In continue mode, with
    three items of which the second has no attachment, [execute] does not
    return: the [catch] block of item 1 raises while it reads its payload,
    one upload (item 0) has been sent, item 2 is never processed, and no
    error record exists anywhere. *)
Theorem continue_mode_scenario_raises (pfuel k : nat) :
  execute (Sample.createHost true) pfuel (2 + k)
          [[Sample.withFile 1; Sample.noFile 2; Sample.withFile 3]]
  = (Throw handlerError,
     {| inputData := [[Sample.withFile 1; Sample.noFile 2; Sample.withFile 3]];
        returnData := [wrap (JObj [("task_id", JStr "c9d3ab1e-task")])];
        sent := [(0, PaperlessNgxApi.authenticate Sample.creds
                       (createRequestOptions (Sample.createHost true)
                                             Sample.pdf Sample.pdf))] |}).
Proof. reflexivity. Qed.

(** C10: the run of a single item without an attachment, in continue
    mode.  The claim has the loop append and fail again without end.  The
    run ends: the [catch] block of iteration 0 appends one error record to
    the input list, the loop takes that record as item 1, and the [catch]
    block of iteration 1 raises while it reads the payload of its record.
    When the failing item stands at index 2, the [catch] block raises at
    once, with the host's error for the input index. *)
Lemma continue_mode_loop_terminates :
  execute (Sample.createHost true) 0 3 [[Sample.noFile 1]]
  = (Throw handlerError,
     {| inputData := [[Sample.noFile 1;
                       errorRecord (JObj [("n", JNum 1)])
                                   (missingBinaryError 0 "data") 0]];
        returnData := [];
        sent := [] |}) /\
  ~ (forall fuel, fst (execute (Sample.createHost true) 0 fuel [[Sample.noFile 1]])
                  = Diverge) /\
  fst (execute (Sample.createHost true) 0 4
         [[Sample.withFile 1; Sample.withFile 2; Sample.noFile 3]])
  = Throw inputIndexError.
Proof.
  split; [reflexivity | split; [| reflexivity]].
  intros Hnever. specialize (Hnever 3). discriminate Hnever.
Qed.


(* ------------------------------------------------------------------ *)
(** ** What an iteration leaves in [returnData] *)

Lemma paginated_keeps_records (h : Host) (fuel : nat) : forall r idx po st res st',
  requestWithAuthenticationPaginated h fuel r idx po st = (res, st') ->
  returnData st' = returnData st.
Proof.
  induction fuel as [| fuel IH]; intros r idx po st res st' H; simpl in H.
  - pair_inv H. reflexivity.
  - pose proof (requestWithAuthentication_sends h r idx st) as Hs.
    bind_inv H; cbn [snd] in Hs;
      assert (Hr : returnData st0 = returnData st) by (rewrite Hs; reflexivity);
      clear Hs E; try (pair_inv H; exact Hr).
    bind_inv H; apply resolve_inv in E; subst; try (pair_inv H; exact Hr).
    destruct a0; [| unfold ret in H; pair_inv H; exact Hr].
    bind_inv H; apply resolve_inv in E; subst; try (pair_inv H; exact Hr).
    bind_inv H; apply IH in E; unfold ret in H; pair_inv H; congruence.
Qed.

Lemma flatMap_resultsOf_wrapped (rs : list Response) :
  forall out, flatMap resultsOf rs = Some out -> exists xs, out = map wrap xs.
Proof.
  induction rs as [| r rs IH]; simpl; intros out H.
  - pair_inv H. exists []. reflexivity.
  - unfold resultsOf at 1 in H.
    destruct (get_prop (body r) "results") as [[ | | | | | results | ] |];
      try discriminate.
    destruct (flatMap resultsOf rs) as [zs |]; [| discriminate].
    pair_inv H. destruct (IH zs eq_refl) as [xs Hxs].
    exists (results ++ xs). rewrite map_app, Hxs. reflexivity.
Qed.

Lemma readBranch_output (h : Host) (pfuel idx : nat) (st : State) res st' :
  readBranch h pfuel idx st = (res, st') ->
  exists xs, returnData st' = returnData st ++ map wrap xs /\
             (res <> Ok tt -> xs = []).
Proof.
  unfold readBranch. intros H.
  bind_inv H; apply paginated_keeps_records in E;
    try solve [pair_inv H; exists []; rewrite app_nil_r; auto].
  destruct (flatMap resultsOf a) as [out |] eqn:F.
  - destruct (flatMap_resultsOf_wrapped a out F) as [xs Hxs].
    unfold returnData_push in H. pair_inv H.
    exists xs. cbn [returnData]. rewrite E. split; [reflexivity |].
    intros Hne. exfalso. apply Hne. reflexivity.
  - unfold throw in H. pair_inv H. exists []. rewrite app_nil_r. auto.
Qed.

Lemma createBranch_output (h : Host) (idx : nat) (st : State) res st' :
  createBranch h idx st = (res, st') ->
  exists xs, returnData st' = returnData st ++ map wrap xs /\
             (res <> Ok tt -> xs = []).
Proof.
  unfold createBranch. intros H.
  bind_inv H; unfold assertBinaryData in E;
    destruct (binaryOf idx (documentFieldName h idx) st) eqn:B;
    pair_inv E; try solve [pair_inv H; exists []; rewrite app_nil_r; auto].
  bind_inv H; rewrite B in E; pair_inv E.
  pose proof (requestWithAuthentication_sends h (createRequestOptions h a0 a0) idx st) as Hs.
  bind_inv H; cbn [snd] in Hs;
    assert (Hr : returnData st0 = returnData st) by (rewrite Hs; reflexivity);
    clear Hs E; try solve [pair_inv H; exists []; rewrite app_nil_r; auto].
  unfold returnData_push in H. pair_inv H.
  exists [JObj [("task_id", a)]]. cbn [returnData]. rewrite Hr.
  split; [reflexivity |]. intros Hne. exfalso. apply Hne. reflexivity.
Qed.

Lemma tryBlock_output (h : Host) (pfuel idx : nat) (st : State) res st' :
  tryBlock h pfuel idx st = (res, st') ->
  exists xs, returnData st' = returnData st ++ map wrap xs /\
             (res <> Ok tt -> xs = []).
Proof.
  unfold tryBlock. intros H.
  destruct (Resource_eqb (resource h) Document);
    [| unfold ret in H; pair_inv H; exists []; rewrite app_nil_r; auto].
  destruct (Operation_eqb (operation h) Read) eqn:Hread.
  - assert (Hc : Operation_eqb (operation h) Create = false)
      by (destruct (operation h); try discriminate; reflexivity).
    rewrite Hc in H.
    bind_inv H; apply readBranch_output in E; destruct E as (xs & Hxs & Hfail).
    + unfold ret in H. pair_inv H. exists xs. split; [exact Hxs |].
      intros Hne. destruct a. contradiction.
    + pair_inv H. exists xs. auto.
    + pair_inv H. exists xs. auto.
  - unfold bind at 1 in H. unfold ret at 1 in H.
    destruct (Operation_eqb (operation h) Create).
    + eapply createBranch_output; eauto.
    + unfold ret in H. pair_inv H. exists []. rewrite app_nil_r. auto.
Qed.

(** X1: an iteration that does not complete leaves [returnData] as it was:
    a Read whose pagination or result mapping fails on any page appends
    none of the results it fetched, and a failed upload appends no record. *)
Theorem failed_iteration_emits_nothing (h : Host) (pfuel idx : nat) (st st' : State)
    (res : Result unit) :
  tryBlock h pfuel idx st = (res, st') ->
  res <> Ok tt ->
  returnData st' = returnData st.
Proof.
  intros H Hne. apply tryBlock_output in H. destruct H as (xs & Hxs & Hfail).
  rewrite Hxs, (Hfail Hne). apply app_nil_r.
Qed.

Lemma failed_iteration_emits_nothing_witness :
  let h := Sample.readHost [] (Sample.replay [Sample.page1]) in
  returnData (snd (tryBlock h 5 0 (start [[Sample.noFile 1]]))) = [] /\
  List.length (sent (snd (tryBlock h 5 0 (start [[Sample.noFile 1]])))) = 2.
Proof.
  intros h. split; [| reflexivity].
  refine (failed_iteration_emits_nothing h 5 0 (start [[Sample.noFile 1]])
            (snd (tryBlock h 5 0 (start [[Sample.noFile 1]])))
            (fst (tryBlock h 5 0 (start [[Sample.noFile 1]]))) _ _).
  - reflexivity.
  - discriminate.
Defined.

Lemma forLoop_output (h : Host) (pfuel : nat) : forall fuel idx st res st',
  forLoop h pfuel fuel idx st = (res, st') ->
  exists xs, returnData st' = returnData st ++ map wrap xs.
Proof.
  induction fuel as [| fuel IH]; intros idx st res st' H; simpl in H.
  - pair_inv H. exists []. rewrite app_nil_r. reflexivity.
  - destruct (idx <? List.length (items st))%nat;
      [| pair_inv H; exists []; rewrite app_nil_r; reflexivity].
    destruct (tryBlock h pfuel idx st) as [r1 st1] eqn:Ht.
    apply tryBlock_output in Ht. destruct Ht as (xs & Hxs & _).
    assert (Hend : forall s, returnData s = returnData st1 ->
                             exists ys, returnData s = returnData st ++ map wrap ys)
      by (intros s Hs; exists xs; congruence).
    assert (Hstep : forall s r s', returnData s = returnData st1 ->
                                   forLoop h pfuel fuel (S idx) s = (r, s') ->
                                   exists ys, returnData s' = returnData st ++ map wrap ys).
    { intros s r s' Hs Hrun. apply IH in Hrun. destruct Hrun as [ys Hys].
      exists (xs ++ ys). rewrite Hys, Hs, Hxs, map_app, app_assoc. reflexivity. }
    destruct r1 as [[] | e |].
    + eapply Hstep; eauto.
    + destruct (catchBlock h idx e st1) as [r2 st2] eqn:Hc.
      apply catchBlock_frame in Hc. destruct Hc as (_ & Hr & _).
      destruct r2 as [[] | e2 |]; try (pair_inv H; apply Hend; exact Hr).
      eapply Hstep; eauto.
    + pair_inv H. apply Hend. reflexivity.
Qed.

(** X2: whatever a run returns is a single output whose records are all of
    the form [{ json: v }]: no returned record carries binary data, an error
    or a paired-item index, in either continuation mode. *)
Theorem returned_records_are_plain (h : Host) (pfuel fuel : nat)
    (inputs : list (list INodeExecutionData))
    (outs : list (list INodeExecutionData)) (st : State) :
  execute h pfuel fuel inputs = (Ok outs, st) ->
  exists xs, outs = [map wrap xs] /\
             Forall (fun r => binary r = None /\ error r = None /\ pairedItem r = None)
                    (map wrap xs).
Proof.
  intros H.
  destruct (Resource_eq_dec (resource h)) as [Hres | Hres];
    [| rewrite execute_undeclared in H by exact Hres; discriminate].
  rewrite execute_document in H by exact Hres.
  destruct (forLoop h pfuel fuel 0 (start inputs)) as [[[] | e |] st1] eqn:Hrun;
    try discriminate.
  pair_inv H. apply forLoop_output in Hrun. destruct Hrun as [xs Hxs].
  cbn [start returnData app] in Hxs.
  exists xs. rewrite Hxs. split; [reflexivity |].
  clear. induction xs; simpl; constructor; auto.
Qed.

Lemma returned_records_are_plain_witness :
  exists xs,
    [[wrap (JObj [("id", JNum 1)]); wrap (JObj [("id", JNum 2)]);
      wrap (JObj [("id", JNum 3)])]] = [map wrap xs] /\
    Forall (fun r => binary r = None /\ error r = None /\ pairedItem r = None)
           (map wrap xs).
Proof.
  exact (returned_records_are_plain
           (Sample.readHost [] (Sample.replay [Sample.page1; Sample.page2])) 2 2
           [[Sample.noFile 1]] _ _ eq_refl).
Defined.

(* ------------------------------------------------------------------ *)
(** ** What a run does to its input, and how long it takes *)

Lemma forLoop_skip_state (h : Host) (pfuel : nat) :
  (forall idx st, tryBlock h pfuel idx st = (Ok tt, st)) ->
  forall fuel idx st, snd (forLoop h pfuel fuel idx st) = st.
Proof.
  intros Hskip. induction fuel as [| fuel IH]; intros idx st; simpl; [reflexivity |].
  destruct (idx <? List.length (items st))%nat; [| reflexivity].
  rewrite Hskip. apply IH.
Qed.

Lemma execute_state (h : Host) (pfuel fuel : nat)
    (inputs : list (list INodeExecutionData)) :
  snd (execute h pfuel fuel inputs) = snd (forLoop h pfuel fuel 0 (start inputs)).
Proof.
  destruct (Resource_eq_dec (resource h)) as [Hres | Hres].
  - rewrite execute_document by exact Hres.
    destruct (forLoop h pfuel fuel 0 (start inputs)) as [[[] | e |] st]; reflexivity.
  - rewrite execute_undeclared by exact Hres.
    rewrite (forLoop_skip_state h pfuel (fun idx st => tryBlock_undeclared h pfuel idx st Hres)).
    reflexivity.
Qed.

Lemma catchBlock_push (h : Host) (idx : nat) (e : JsError) (st st2 : State) :
  catchBlock h idx e st = (Ok tt, st2) ->
  continueOnFail h = true /\
  idx < List.length (inputData st) /\
  exists first,
    inputData st2 = (items st ++ [errorRecord (json first) e idx]) :: tl (inputData st).
Proof.
  destruct (continueOnFail h) eqn:Hc;
    [| unfold catchBlock; rewrite Hc; discriminate].
  rewrite (catchBlock_continue h idx e st Hc).
  destruct (List.length (inputData st) <? idx)%nat; [discriminate |].
  destruct (nth idx (inputData st) []) as [| first rest] eqn:G; [discriminate |].
  apply nth_cons_inside in G. destruct G as [Hlt _].
  unfold items_push. intros H; pair_inv H; cbn [inputData].
  split; [reflexivity | split; [exact Hlt |]].
  exists first. unfold items.
  destruct (inputData st); [simpl in Hlt; lia | reflexivity].
Qed.

Lemma catchBlock_raises_in_place (h : Host) (idx : nat) (e e2 : JsError)
    (st st2 : State) :
  catchBlock h idx e st = (Throw e2, st2) -> st2 = st.
Proof.
  destruct (continueOnFail h) eqn:Hc.
  - rewrite (catchBlock_continue h idx e st Hc). unfold items_push.
    destruct (List.length (inputData st) <? idx)%nat; [intros H; pair_inv H; reflexivity |].
    destruct (nth idx (inputData st) []); intros H; pair_inv H; reflexivity.
  - unfold catchBlock, throw. rewrite Hc. intros H; pair_inv H; reflexivity.
Qed.

Lemma forLoop_inputs (h : Host) (pfuel : nat) : forall fuel idx st res st',
  forLoop h pfuel fuel idx st = (res, st') ->
  exists recs,
    items st' = items st ++ recs /\
    tl (inputData st') = tl (inputData st) /\
    List.length (inputData st') = List.length (inputData st) /\
    Forall (fun r => binary r = None /\ error r <> None) recs /\
    List.length recs <= List.length (inputData st) - idx /\
    (continueOnFail h = false -> recs = []).
Proof.
  induction fuel as [| fuel IH]; intros idx st res st' H; simpl in H.
  - pair_inv H. exists []. rewrite app_nil_r. repeat split; auto. simpl; lia.
  - destruct (idx <? List.length (items st))%nat;
      [| pair_inv H; exists []; rewrite app_nil_r; repeat split; auto; simpl; lia].
    destruct (tryBlock h pfuel idx st) as [r1 st1] eqn:Ht.
    apply tryBlock_grows in Ht. destruct Ht as (Hi & _).
    assert (Hstop : exists recs,
               items st1 = items st ++ recs /\
               tl (inputData st1) = tl (inputData st) /\
               List.length (inputData st1) = List.length (inputData st) /\
               Forall (fun r => binary r = None /\ error r <> None) recs /\
               List.length recs <= List.length (inputData st) - idx /\
               (continueOnFail h = false -> recs = [])).
    { exists []. unfold items. rewrite Hi, app_nil_r. repeat split; auto. simpl; lia. }
    destruct r1 as [[] | e |].
    + apply IH in H. destruct H as (recs & Hit & Htl & Hlen & Frec & Hcount & Hab).
      exists recs. unfold items in *. rewrite Hi in *.
      repeat split; auto. lia.
    + destruct (catchBlock h idx e st1) as [r2 st2] eqn:Hc.
      destruct r2 as [[] | e2 |].
      * apply catchBlock_push in Hc. destruct Hc as (Hcont & Hlt & first & Hpush).
        apply IH in H. destruct H as (recs & Hit & Htl & Hlen & Frec & Hcount & Hab).
        exists (errorRecord (json first) e idx :: recs).
        rewrite Hit, Htl, Hlen. unfold items at 1. rewrite Hpush. cbn [nth tl List.length].
        unfold items. rewrite Hi in *.
        repeat split.
        -- rewrite <- app_assoc. reflexivity.
        -- destruct (inputData st); [simpl in Hlt; lia | reflexivity].
        -- constructor; [split; [reflexivity | discriminate] | exact Frec].
        -- rewrite Hpush in Hcount. cbn [List.length] in Hcount |- *.
           destruct (inputData st) as [| its others]; [simpl in Hlt; lia |].
           cbn [tl List.length] in *. lia.
        -- congruence.
      * pose proof (catchBlock_frame h idx e st1 _ _ Hc) as (_ & _ & Hl).
        assert (Hsame : inputData st' = inputData st1).
        { apply catchBlock_raises_in_place in Hc. pair_inv H. reflexivity. }
        destruct Hstop as (recs & Hs1 & Hs2 & Hs3 & Hs4 & Hs5 & Hs6).
        exists recs. unfold items in *. rewrite Hsame.
        repeat split; auto.
      * exfalso. eapply catchBlock_never_diverges; eauto.
    + pair_inv H. exact Hstop.
Qed.

(** X3: the input store a run leaves behind is the one it was given, except
    that error records may have been appended to the item array of input
    connection 0: the original items stay in place, every other connection
    is untouched, each appended record has an error and no binary data, and
    there are at most as many of them as the store has connections. *)
Theorem input_items_only_gain_error_records (h : Host) (pfuel fuel : nat)
    (inputs : list (list INodeExecutionData)) :
  exists recs,
    items (snd (execute h pfuel fuel inputs)) = items (start inputs) ++ recs /\
    tl (inputData (snd (execute h pfuel fuel inputs))) = tl inputs /\
    Forall (fun r => binary r = None /\ error r <> None) recs /\
    List.length recs <= List.length inputs.
Proof.
  rewrite execute_state.
  destruct (forLoop h pfuel fuel 0 (start inputs)) as [res st] eqn:H.
  apply forLoop_inputs in H.
  destruct H as (recs & Hit & Htl & _ & Frec & Hcount & _).
  exists recs. cbn [snd start inputData] in *.
  repeat split; auto. lia.
Qed.

(** X4: in abort mode a run never changes the input store, whether it
    returns, raises or is still running. *)
Theorem abort_mode_keeps_input (h : Host) (pfuel fuel : nat)
    (inputs : list (list INodeExecutionData)) :
  continueOnFail h = false ->
  inputData (snd (execute h pfuel fuel inputs)) = inputs.
Proof.
  intros Hab. rewrite execute_state.
  destruct (forLoop h pfuel fuel 0 (start inputs)) as [res st] eqn:H.
  apply forLoop_inputs in H.
  destruct H as (recs & Hit & Htl & Hlen & _ & _ & Hnone).
  rewrite (Hnone Hab), app_nil_r in Hit.
  cbn [snd start inputData] in *. unfold items in Hit. cbn [inputData] in Hit.
  destruct (inputData st) as [| a l], inputs as [| b m]; simpl in *;
    try discriminate; congruence.
Qed.

Lemma abort_mode_keeps_input_witness :
  inputData (snd (execute (Sample.createHost false) 0 7
                    [[Sample.noFile 1; Sample.withFile 2]]))
  = [[Sample.noFile 1; Sample.withFile 2]].
Proof.
  exact (abort_mode_keeps_input (Sample.createHost false) 0 7
           [[Sample.noFile 1; Sample.withFile 2]] eq_refl).
Defined.

Lemma forLoop_terminates (h : Host) (pfuel : nat) :
  (forall idx st st', tryBlock h pfuel idx st <> (Diverge, st')) ->
  forall fuel idx st,
    (List.length (items st) - idx) + (List.length (inputData st) - idx) < fuel ->
    fst (forLoop h pfuel fuel idx st) <> Diverge.
Proof.
  intros Htotal. induction fuel as [| fuel IH]; intros idx st Hfuel; [lia |].
  simpl. destruct (Nat.ltb_spec idx (List.length (items st))); [| discriminate].
  destruct (tryBlock h pfuel idx st) as [r1 st1] eqn:Ht.
  pose proof (tryBlock_grows h pfuel idx st _ _ Ht) as (Hi & _).
  destruct r1 as [[] | e |].
  - apply IH. unfold items in *. rewrite Hi. lia.
  - destruct (catchBlock h idx e st1) as [r2 st2] eqn:Hc.
    destruct r2 as [[] | e2 |]; try discriminate.
    + apply catchBlock_push in Hc. destruct Hc as (_ & Hlt & first & Hpush).
      apply IH. unfold items in *. rewrite Hpush. cbn [nth List.length].
      rewrite length_app. cbn [List.length]. rewrite Hi in *.
      destruct (inputData st) as [| its others]; [simpl in Hlt; lia |].
      cbn [tl List.length nth] in *. lia.
    + exfalso. eapply catchBlock_never_diverges; eauto.
  - exfalso. eapply Htotal; eauto.
Qed.

(** X5: the item loop itself always ends.  When no single iteration runs
    forever, [execute] returns or raises within as many iterations as there
    are input items plus input connections, in either mode, although the
    loop runs over a list that grows while it is iterated. *)
Theorem item_loop_terminates (h : Host) (pfuel fuel : nat)
    (inputs : list (list INodeExecutionData)) :
  (forall idx st st', tryBlock h pfuel idx st <> (Diverge, st')) ->
  List.length (items (start inputs)) + List.length inputs < fuel ->
  fst (execute h pfuel fuel inputs) <> Diverge.
Proof.
  intros Htotal Hfuel.
  destruct (Resource_eq_dec (resource h)) as [Hres | Hres];
    [| rewrite execute_undeclared by exact Hres; discriminate].
  rewrite execute_document by exact Hres.
  pose proof (forLoop_terminates h pfuel Htotal fuel 0 (start inputs)) as Hrun.
  destruct (forLoop h pfuel fuel 0 (start inputs)) as [[[] | e |] st];
    try discriminate.
  exfalso. apply Hrun; [| reflexivity].
  cbn [start inputData] in *. lia.
Qed.

Lemma tryBlock_total_unless_read (h : Host) (pfuel : nat) :
  resource h <> Document \/ operation h <> Read ->
  forall idx st st', tryBlock h pfuel idx st <> (Diverge, st').
Proof.
  intros Hnot idx st st' H. unfold tryBlock in H.
  destruct (resource h) eqn:Hres; try discriminate.
  destruct (operation h) eqn:Hop; try discriminate.
  - apply (createBranch_total h idx st st'). exact H.
  - destruct Hnot; congruence.
Qed.

Lemma item_loop_terminates_witness :
  fst (execute (Sample.createHost true) 0 5
         [[Sample.noFile 1; Sample.withFile 2; Sample.noFile 3]]) <> Diverge.
Proof.
  apply (item_loop_terminates (Sample.createHost true) 0 5
           [[Sample.noFile 1; Sample.withFile 2; Sample.noFile 3]]).
  - apply tryBlock_total_unless_read. right. discriminate.
  - simpl. lia.
Defined.

(** X6: only a Read can keep a run from ending.  For every other
    combination of resource and operation, in either mode and for every
    remote, [execute] returns or raises within as many iterations as there
    are input items plus input connections. *)
Theorem only_read_can_run_forever (h : Host) (pfuel fuel : nat)
    (inputs : list (list INodeExecutionData)) :
  resource h <> Document \/ operation h <> Read ->
  List.length (items (start inputs)) + List.length inputs < fuel ->
  fst (execute h pfuel fuel inputs) <> Diverge.
Proof.
  intros Hnot Hfuel.
  destruct (Resource_eq_dec (resource h)) as [Hres | Hres];
    [| rewrite execute_undeclared by exact Hres; discriminate].
  rewrite execute_document by exact Hres.
  pose proof (forLoop_terminates h pfuel (tryBlock_total_unless_read h pfuel Hnot)
                fuel 0 (start inputs)) as Hrun.
  destruct (forLoop h pfuel fuel 0 (start inputs)) as [[[] | e |] st];
    try discriminate.
  exfalso. apply Hrun; [| reflexivity].
  cbn [start inputData] in *. lia.
Qed.

Lemma only_read_can_run_forever_witness :
  fst (execute (Sample.createHost true) 0 3 [[Sample.noFile 1]]) <> Diverge.
Proof.
  apply (only_read_can_run_forever (Sample.createHost true) 0 3 [[Sample.noFile 1]]).
  - right. discriminate.
  - simpl. lia.
Defined.

(* ------------------------------------------------------------------ *)
(** ** Order of the requests *)

Lemma StronglySorted_app_tag : forall (l1 l2 : list nat) (m : nat),
  StronglySorted le l1 ->
  Forall (fun x => x <= m) l1 ->
  Forall (fun x => x = m) l2 ->
  StronglySorted le (l1 ++ l2).
Proof.
  induction l1 as [| a l1 IH]; intros l2 m Hs Hle Heq; simpl.
  - induction Heq as [| x l Hx Hl IHl]; constructor; auto.
    subst x. eapply Forall_impl; [| exact Hl]. intros y Hy; cbv beta in Hy |- *; lia.
  - inversion Hs as [| ? ? Hs' Ha]; subst. inversion Hle as [| ? ? Ham Hle']; subst.
    constructor; [eapply IH; eauto |].
    apply Forall_app; split; [exact Ha |].
    eapply Forall_impl; [| exact Heq]. intros y Hy; cbv beta in Hy |- *; lia.
Qed.

Lemma forLoop_sorted (h : Host) (pfuel : nat) : forall fuel idx st res st',
  forLoop h pfuel fuel idx st = (res, st') ->
  StronglySorted le (map fst (sent st)) ->
  Forall (fun x => x <= idx) (map fst (sent st)) ->
  StronglySorted le (map fst (sent st')).
Proof.
  induction fuel as [| fuel IH]; intros idx st res st' H Hs Hle; simpl in H.
  - pair_inv H. exact Hs.
  - destruct (idx <? List.length (items st))%nat; [| pair_inv H; exact Hs].
    destruct (tryBlock h pfuel idx st) as [r1 st1] eqn:Ht.
    apply tryBlock_grows in Ht. destruct Ht as (_ & (l & Hl & Fl) & _).
    assert (Htag : Forall (fun x => x = idx) (map fst l)).
    { apply Forall_map. eapply Forall_impl; [| exact Fl]. intros a [Ha _]; exact Ha. }
    assert (Hs1 : StronglySorted le (map fst (sent st1))).
    { rewrite Hl, map_app. eapply StronglySorted_app_tag; eauto. }
    assert (Hle1 : Forall (fun x => x <= S idx) (map fst (sent st1))).
    { rewrite Hl, map_app. apply Forall_app; split.
      - eapply Forall_impl; [| exact Hle]. intros a Ha; simpl in Ha; lia.
      - eapply Forall_impl; [| exact Htag]. intros a Ha; simpl in Ha; lia. }
    destruct r1 as [[] | e |].
    + eapply IH; eauto.
    + destruct (catchBlock h idx e st1) as [r2 st2] eqn:Hc.
      apply catchBlock_frame in Hc. destruct Hc as (Hsent & _).
      destruct r2 as [[] | e2 |]; try (pair_inv H; rewrite Hsent; exact Hs1).
      eapply IH; [exact H | |]; rewrite Hsent; assumption.
    + pair_inv H. exact Hs1.
Qed.

(** X7: the requests of a run reach the remote in item order: in the log
    of any run, whatever its outcome, the item indices never decrease, so
    all requests of one item come before any request of a later item. *)
Theorem requests_follow_item_order (h : Host) (pfuel fuel : nat)
    (inputs : list (list INodeExecutionData)) :
  StronglySorted le (map fst (sent (snd (execute h pfuel fuel inputs)))).
Proof.
  rewrite execute_state.
  destruct (forLoop h pfuel fuel 0 (start inputs)) as [res st] eqn:H.
  apply forLoop_sorted in H; [exact H | constructor | constructor].
Qed.

(* ------------------------------------------------------------------ *)
(** ** Uploading every item *)

Lemma createBranch_ok (h : Host) (idx : nat) (st : State) (b : IBinaryData) (r : JSON) :
  binaryOf idx (documentFieldName h idx) st = Some b ->
  remote h (sent st)
         (PaperlessNgxApi.authenticate (credentials h) (createRequestOptions h b b))
  = Body r ->
  createBranch h idx st
  = (Ok tt,
     {| inputData := inputData st;
        returnData := returnData st ++ [taskRecord r];
        sent := sent st
                ++ [(idx, PaperlessNgxApi.authenticate (credentials h)
                            (createRequestOptions h b b))] |}).
Proof.
  intros Hb Hr.
  unfold createBranch, bind, assertBinaryData.
  rewrite Hb. cbv beta iota. rewrite Hb. cbv beta iota.
  unfold requestWithAuthentication. cbv beta zeta. rewrite Hr.
  reflexivity.
Qed.

Lemma forLoop_uploads (h : Host) (pfuel : nat) :
  resource h = Document ->
  operation h = Create ->
  (forall log q, exists r, remote h log q = Body r) ->
  forall d idx st,
    (forall i, idx <= i -> i < List.length (items st) ->
               binaryOf i (documentFieldName h i) st <> None) ->
    List.length (items st) - idx = d ->
    exists replies reqs st',
      (forall fuel, d < fuel -> forLoop h pfuel fuel idx st = (Ok tt, st')) /\
      returnData st' = returnData st ++ map taskRecord replies /\
      List.length replies = d /\
      sent st' = sent st ++ reqs /\
      map fst reqs = seq idx d /\
      Forall (is_upload h) reqs /\
      inputData st' = inputData st /\
      (forall k b,
          idx <= k -> k < idx + d ->
          binaryOf k (documentFieldName h k) st = Some b ->
          nth_error reqs (k - idx)
          = Some (k, PaperlessNgxApi.authenticate (credentials h)
                       (createRequestOptions h b b)) /\
          exists r,
            nth_error replies (k - idx) = Some r /\
            remote h (sent st ++ firstn (k - idx) reqs)
                   (PaperlessNgxApi.authenticate (credentials h)
                      (createRequestOptions h b b))
            = Body r).
Proof.
  intros Hres Hop Haccept.
  induction d as [| d IH]; intros idx st Hbin Hd.
  - exists [], [], st. rewrite !app_nil_r. repeat split; auto; try lia.
    intros [| fuel] Hfuel; [lia |]. simpl.
    destruct (Nat.ltb_spec idx (List.length (items st))); [lia | reflexivity].
  - assert (Hlt : idx < List.length (items st)) by lia.
    destruct (binaryOf idx (documentFieldName h idx) st) as [b |] eqn:Hb;
      [| exfalso; apply (Hbin idx); auto].
    destruct (Haccept (sent st)
                (PaperlessNgxApi.authenticate (credentials h) (createRequestOptions h b b)))
      as [r Hr].
    pose proof (createBranch_ok h idx st b r Hb Hr) as Hrun.
    set (st1 := {| inputData := inputData st;
                   returnData := returnData st ++ [taskRecord r];
                   sent := sent st
                           ++ [(idx, PaperlessNgxApi.authenticate (credentials h)
                                       (createRequestOptions h b b))] |}) in *.
    destruct (IH (S idx) st1)
      as (replies & reqs & st' & Hloop & Hret & Hlen & Hsent & Htags & Hup & Hin & Hties).
    + intros i Hi Hilt.
      rewrite (binaryOf_inputData i _ st st1 eq_refl). apply Hbin; [lia | exact Hilt].
    + change (items st1) with (items st). lia.
    + exists (r :: replies),
             ((idx, PaperlessNgxApi.authenticate (credentials h)
                      (createRequestOptions h b b)) :: reqs), st'.
      split; [| split; [| split; [| split; [| split; [| split; [| split]]]]]].
      * intros [| fuel] Hfuel; [lia |]. simpl.
        apply Nat.ltb_lt in Hlt. rewrite Hlt.
        rewrite tryBlock_create, Hrun by assumption.
        apply Hloop. lia.
      * rewrite Hret. unfold st1. cbn [returnData map]. rewrite <- app_assoc. reflexivity.
      * simpl. rewrite Hlen. reflexivity.
      * rewrite Hsent. unfold st1. cbn [sent]. rewrite <- app_assoc. reflexivity.
      * simpl. rewrite Htags. reflexivity.
      * constructor; [split; reflexivity | exact Hup].
      * rewrite Hin. reflexivity.
      * intros k b' Hk Hkd Hb'.
        destruct (Nat.eq_dec k idx) as [Heq | Hne].
        -- subst k. rewrite Hb in Hb'. pair_inv Hb'.
           replace (idx - idx) with 0 by lia. cbn [nth_error firstn].
           split; [reflexivity |].
           exists r. split; [reflexivity |]. rewrite app_nil_r. exact Hr.
        -- replace (k - idx) with (S (k - S idx)) by lia. cbn [nth_error firstn].
           destruct (Hties k b') as (Hreq & r' & Hrep & Hans); try lia.
           { rewrite (binaryOf_inputData k _ st st1 eq_refl). exact Hb'. }
           split; [exact Hreq |].
           exists r'. split; [exact Hrep |].
           unfold st1 in Hans. cbn [sent] in Hans.
           rewrite <- app_assoc in Hans. exact Hans.
Qed.

(** X8: a Create run over items that all carry their attachment, against a
    remote that accepts every upload, returns one task record per item in
    item order, having sent exactly one upload per item, item 0 first, and
    leaves the input as it was; the k-th request is the upload of item k's
    attachment, and the k-th record holds what the remote answered to that
    request after the first k requests; the continuation mode plays no
    part. *)
Theorem create_uploads_every_item (h : Host) (pfuel fuel : nat)
    (inputs : list (list INodeExecutionData)) :
  resource h = Document ->
  operation h = Create ->
  (forall log q, exists r, remote h log q = Body r) ->
  (forall i, i < List.length (items (start inputs)) ->
             binaryOf i (documentFieldName h i) (start inputs) <> None) ->
  List.length (items (start inputs)) < fuel ->
  exists replies st,
    execute h pfuel fuel inputs = (Ok [map taskRecord replies], st) /\
    List.length replies = List.length (items (start inputs)) /\
    map fst (sent st) = seq 0 (List.length (items (start inputs))) /\
    Forall (is_upload h) (sent st) /\
    inputData st = inputs /\
    (forall k b,
        k < List.length (items (start inputs)) ->
        binaryOf k (documentFieldName h k) (start inputs) = Some b ->
        nth_error (sent st) k
        = Some (k, PaperlessNgxApi.authenticate (credentials h)
                     (createRequestOptions h b b)) /\
        exists r,
          nth_error replies k = Some r /\
          nth_error (map taskRecord replies) k
          = Some {| json := JObj [("task_id", r)];
                    binary := None; error := None; pairedItem := None |} /\
          remote h (firstn k (sent st))
                 (PaperlessNgxApi.authenticate (credentials h)
                    (createRequestOptions h b b))
          = Body r).
Proof.
  intros Hres Hop Haccept Hbin Hfuel.
  destruct (forLoop_uploads h pfuel Hres Hop Haccept
              (List.length (items (start inputs))) 0 (start inputs))
    as (replies & reqs & st & Hloop & Hret & Hlen & Hsent & Htags & Hup & Hin & Hties).
  - intros i _ Hi. apply Hbin. exact Hi.
  - lia.
  - exists replies, st. rewrite execute_document by exact Hres.
    rewrite (Hloop fuel Hfuel).
    cbn [start returnData sent inputData app] in *.
    rewrite Hret, Hsent.
    split; [reflexivity | split; [exact Hlen | split; [exact Htags |
      split; [exact Hup | split; [exact Hin |]]]]].
    intros k b Hk Hb.
    destruct (Hties k b) as (Hreq & r & Hrep & Hans); try lia; [exact Hb |].
    rewrite Nat.sub_0_r in Hreq, Hrep, Hans.
    split; [exact Hreq |].
    exists r. split; [exact Hrep | split; [| exact Hans]].
    rewrite nth_error_map, Hrep. reflexivity.
Qed.

Lemma create_uploads_every_item_witness :
  exists replies st,
    execute (Sample.createHost true) 0 3 [[Sample.withFile 1; Sample.withFile 2]]
    = (Ok [map taskRecord replies], st) /\
    List.length replies = 2 /\
    map fst (sent st) = [0; 1] /\
    Forall (is_upload (Sample.createHost true)) (sent st) /\
    inputData st = [[Sample.withFile 1; Sample.withFile 2]] /\
    (forall k b,
        k < 2 ->
        binaryOf k "data" (start [[Sample.withFile 1; Sample.withFile 2]]) = Some b ->
        nth_error (sent st) k
        = Some (k, PaperlessNgxApi.authenticate Sample.creds
                     (createRequestOptions (Sample.createHost true) b b)) /\
        exists r,
          nth_error replies k = Some r /\
          nth_error (map taskRecord replies) k
          = Some {| json := JObj [("task_id", r)];
                    binary := None; error := None; pairedItem := None |} /\
          Sample.accepting (firstn k (sent st))
            (PaperlessNgxApi.authenticate Sample.creds
               (createRequestOptions (Sample.createHost true) b b))
          = Body r).
Proof.
  refine (create_uploads_every_item (Sample.createHost true) 0 3
            [[Sample.withFile 1; Sample.withFile 2]] eq_refl eq_refl _ _ _).
  - intros log q. eexists. reflexivity.
  - intros i Hi. simpl in Hi.
    destruct i as [| [| i]]; [discriminate | discriminate | lia].
  - simpl. lia.
Defined.

(* ------------------------------------------------------------------ *)
(** ** Reading once per item *)

Lemma requestWithAuthentication_eq (h : Host) (r : IRequestOptions) (idx : nat) (st : State) :
  requestWithAuthentication h r idx st
  = (match remote h (sent st) (PaperlessNgxApi.authenticate (credentials h) r) with
     | Body b => Ok b
     | Failure e => Throw e
     end,
     {| inputData := inputData st;
        returnData := returnData st;
        sent := sent st ++ [(idx, PaperlessNgxApi.authenticate (credentials h) r)] |}).
Proof.
  unfold requestWithAuthentication.
  destruct (remote h (sent st) _); reflexivity.
Qed.

Lemma paginated_stateless (h : Host) :
  stateless h ->
  forall fuel r idx idx' po st st2 res st',
    requestWithAuthenticationPaginated h fuel r idx po st = (res, st') ->
    exists l,
      st' = {| inputData := inputData st;
               returnData := returnData st;
               sent := sent st ++ map (pair idx) l |} /\
      requestWithAuthenticationPaginated h fuel r idx' po st2
      = (res, {| inputData := inputData st2;
                 returnData := returnData st2;
                 sent := sent st2 ++ map (pair idx') l |}).
Proof.
  intros Hpure.
  induction fuel as [| fuel IH]; intros r idx idx' po st st2 res st' H.
  - simpl in H |- *. pair_inv H. exists []. simpl. rewrite !app_nil_r.
    destruct st', st2. split; reflexivity.
  - cbn [requestWithAuthenticationPaginated] in H |- *.
    unfold bind at 1 in H. unfold bind at 1.
    rewrite requestWithAuthentication_eq in H.
    rewrite requestWithAuthentication_eq.
    rewrite (Hpure (sent st2) (sent st)).
    set (wire := PaperlessNgxApi.authenticate (credentials h) r) in *.
    assert (Hone : forall (i : nat) (s : State),
               {| inputData := inputData s; returnData := returnData s;
                  sent := sent s ++ [(i, wire)] |}
               = {| inputData := inputData s; returnData := returnData s;
                    sent := sent s ++ map (pair i) [wire] |}) by reflexivity.
    destruct (remote h (sent st) wire) as [b | e];
      [| pair_inv H; exists [wire]; split; reflexivity].
    unfold bind at 1 in H. unfold bind at 1.
    destruct (continue po {| body := b |}) as [more |]; cbn [resolve] in H |- *;
      [| unfold throw in H |- *; pair_inv H; exists [wire]; split; reflexivity].
    unfold ret at 1 in H. unfold ret at 1.
    destruct more; [| unfold ret in H |- *; pair_inv H; exists [wire]; split; reflexivity].
    unfold bind at 1 in H. unfold bind at 1.
    destruct (request_url po {| body := b |}) as [url |]; cbn [resolve] in H |- *;
      [| unfold throw in H |- *; pair_inv H; exists [wire]; split; reflexivity].
    unfold ret at 1 in H. unfold ret at 1.
    unfold bind at 1 in H. unfold bind at 1.
    match type of H with
    | context [requestWithAuthenticationPaginated h fuel ?r' idx po ?s] =>
        destruct (requestWithAuthenticationPaginated h fuel r' idx po s)
          as [r3 st3] eqn:E;
        apply (IH r' idx idx' po s
                 {| inputData := inputData st2; returnData := returnData st2;
                    sent := sent st2 ++ [(idx', wire)] |}) in E
    end.
    destruct E as (l & Hst3 & Hrun). rewrite Hrun.
    cbn [inputData returnData sent] in Hst3 |- *.
    exists (wire :: l).
    assert (Hs : st3 = {| inputData := inputData st; returnData := returnData st;
                          sent := sent st ++ map (pair idx) (wire :: l) |})
      by (rewrite Hst3; cbn [map]; rewrite <- app_assoc; reflexivity).
    assert (Hs2 : {| inputData := inputData st2; returnData := returnData st2;
                     sent := (sent st2 ++ [(idx', wire)]) ++ map (pair idx') l |}
                  = {| inputData := inputData st2; returnData := returnData st2;
                       sent := sent st2 ++ map (pair idx') (wire :: l) |})
      by (cbn [map]; rewrite <- app_assoc; reflexivity).
    rewrite Hs2. clear Hst3 Hrun.
    destruct r3 as [rs | e |]; unfold ret in H |- *; pair_inv H; split; reflexivity.
Qed.

Lemma tryBlock_read_stateless (h : Host) (pfuel : nat) :
  resource h = Document ->
  operation h = Read ->
  stateless h ->
  forall idx idx' st st2 res st',
    param_additionalFields h idx' = param_additionalFields h idx ->
    tryBlock h pfuel idx st = (res, st') ->
    exists l out,
      st' = {| inputData := inputData st;
               returnData := returnData st ++ out;
               sent := sent st ++ map (pair idx) l |} /\
      tryBlock h pfuel idx' st2
      = (res, {| inputData := inputData st2;
                 returnData := returnData st2 ++ out;
                 sent := sent st2 ++ map (pair idx') l |}).
Proof.
  intros Hres Hop Hpure idx idx' st st2 res st' Hparam H.
  rewrite tryBlock_read in H |- * by assumption.
  unfold bind at 1 in H. unfold bind at 1.
  unfold readBranch in H |- *. rewrite Hparam.
  unfold bind at 1 in H. unfold bind at 1.
  destruct (requestWithAuthenticationPaginated h pfuel
              (readRequestOptions h (param_additionalFields h idx)) idx
              paginationOptions st) as [r1 st1] eqn:E.
  apply (paginated_stateless h Hpure pfuel _ idx idx' _ st st2) in E.
  destruct E as (l & Hst1 & Hrun). rewrite Hrun. subst st1.
  exists l.
  destruct r1 as [rs | e |].
  - destruct (flatMap resultsOf rs) as [out |].
    + exists out. unfold returnData_push, ret in H |- *. pair_inv H.
      split; reflexivity.
    + exists []. unfold throw in H |- *. pair_inv H. rewrite !app_nil_r.
      split; reflexivity.
  - exists []. pair_inv H. rewrite !app_nil_r. split; reflexivity.
  - exists []. pair_inv H. rewrite !app_nil_r. split; reflexivity.
Qed.

Lemma forLoop_repeats (h : Host) (pfuel : nat) (out : list INodeExecutionData) (k : nat) :
  (forall idx st, exists st',
      tryBlock h pfuel idx st = (Ok tt, st') /\
      returnData st' = returnData st ++ out /\
      List.length (sent st') = List.length (sent st) + k /\
      inputData st' = inputData st) ->
  forall d idx st,
    List.length (items st) - idx = d ->
    exists st',
      (forall fuel, d < fuel -> forLoop h pfuel fuel idx st = (Ok tt, st')) /\
      returnData st' = returnData st ++ copies d out /\
      List.length (sent st') = List.length (sent st) + d * k /\
      inputData st' = inputData st.
Proof.
  intros Hstep. induction d as [| d IH]; intros idx st Hd.
  - exists st. simpl. rewrite app_nil_r. repeat split; [| lia].
    intros [| fuel] Hfuel; [lia |]. simpl.
    destruct (Nat.ltb_spec idx (List.length (items st))); [lia | reflexivity].
  - destruct (Hstep idx st) as (st1 & Ht & Hret & Hsent & Hin).
    destruct (IH (S idx) st1) as (st' & Hloop & Hret' & Hsent' & Hin').
    + unfold items. rewrite Hin. fold (items st). lia.
    + exists st'. repeat split.
      * intros [| fuel] Hfuel; [lia |]. simpl.
        assert (Hlt : (idx <? List.length (items st))%nat = true)
          by (apply Nat.ltb_lt; lia).
        rewrite Hlt, Ht. apply Hloop. lia.
      * rewrite Hret', Hret. simpl. rewrite <- app_assoc. reflexivity.
      * rewrite Hsent', Hsent. simpl. lia.
      * congruence.
Qed.

(** X9: a Read never looks at the item it runs for.  Against a remote that
    answers by the request alone, and with the same search for every item,
    a run over n items whose first Read succeeds returns the records of that
    Read n times over and sends n times its requests. *)
Theorem read_repeats_for_every_item (h : Host) (pfuel fuel : nat)
    (inputs : list (list INodeExecutionData)) (st1 : State) :
  resource h = Document ->
  operation h = Read ->
  stateless h ->
  (forall i, param_additionalFields h i = param_additionalFields h 0) ->
  tryBlock h pfuel 0 (start inputs) = (Ok tt, st1) ->
  List.length (items (start inputs)) < fuel ->
  exists st,
    execute h pfuel fuel inputs
    = (Ok [copies (List.length (items (start inputs))) (returnData st1)], st) /\
    List.length (sent st)
    = List.length (items (start inputs)) * List.length (sent st1) /\
    inputData st = inputs.
Proof.
  intros Hres Hop Hpure Hparam Hfirst Hfuel.
  assert (Hstep : forall idx st, exists st',
             tryBlock h pfuel idx st = (Ok tt, st') /\
             returnData st' = returnData st ++ returnData st1 /\
             List.length (sent st') = List.length (sent st) + List.length (sent st1) /\
             inputData st' = inputData st).
  { intros idx st.
    destruct (tryBlock_read_stateless h pfuel Hres Hop Hpure 0 idx (start inputs) st
                (Ok tt) st1 (Hparam idx) Hfirst) as (l & out & Hst1 & Hrun).
    eexists. split; [exact Hrun |].
    rewrite Hst1. cbn [start inputData returnData sent app].
    rewrite !length_app, !length_map. repeat split. }
  destruct (forLoop_repeats h pfuel (returnData st1) (List.length (sent st1)) Hstep
              (List.length (items (start inputs))) 0 (start inputs))
    as (st & Hloop & Hret & Hsent & Hin); [lia |].
  exists st. rewrite execute_document by exact Hres. rewrite (Hloop fuel Hfuel).
  cbn [start inputData returnData sent app List.length] in *.
  rewrite Hret. repeat split; auto.
Qed.

Lemma read_repeats_for_every_item_witness :
  let h := Sample.readHost [] (fun _ _ => Body Sample.page2) in
  exists st,
    execute h 1 3 [[Sample.noFile 1; Sample.noFile 2]]
    = (Ok [[wrap (JObj [("id", JNum 3)]); wrap (JObj [("id", JNum 3)])]], st) /\
    List.length (sent st) = 2 /\
    inputData st = [[Sample.noFile 1; Sample.noFile 2]].
Proof.
  intros h.
  refine (read_repeats_for_every_item h 1 3 [[Sample.noFile 1; Sample.noFile 2]]
            (snd (tryBlock h 1 0 (start [[Sample.noFile 1; Sample.noFile 2]])))
            eq_refl eq_refl _ _ eq_refl _).
  - intros log log' q. reflexivity.
  - intros i. reflexivity.
  - simpl. lia.
Defined.

(* ------------------------------------------------------------------ *)
(** ** The authentication decorator on arbitrary requests *)

Lemma obj_get_set_same {A : Type} (fields : list (string * A)) (k : string) (v : A) :
  obj_get (obj_set fields k v) k = Some v.
Proof.
  induction fields as [| [k' v'] rest IH]; simpl.
  - rewrite String.eqb_refl. reflexivity.
  - destruct (String.eqb k' k) eqn:E; simpl; rewrite E; [reflexivity | exact IH].
Qed.

Lemma obj_get_set_other {A : Type} (fields : list (string * A)) (k k0 : string) (v : A) :
  k0 <> k ->
  obj_get (obj_set fields k v) k0 = obj_get fields k0.
Proof.
  intros Hne. induction fields as [| [k' v'] rest IH]; simpl.
  - destruct (String.eqb_spec k k0); [congruence | reflexivity].
  - destruct (String.eqb_spec k' k); simpl.
    + subst k'. destruct (String.eqb_spec k k0); [congruence | reflexivity].
    + destruct (String.eqb k' k0); [reflexivity | exact IH].
Qed.

Lemma obj_set_twice {A : Type} (fields : list (string * A)) (k : string) (v w : A) :
  obj_set (obj_set fields k v) k w = obj_set fields k w.
Proof.
  induction fields as [| [k' v'] rest IH]; simpl.
  - rewrite String.eqb_refl. reflexivity.
  - destruct (String.eqb k' k) eqn:E; simpl; rewrite E; [reflexivity |].
    rewrite IH. reflexivity.
Qed.

Lemma obj_set_keys {A : Type} (fields : list (string * A)) (k : string) (v : A) :
  map fst (obj_set fields k v)
  = if existsb (String.eqb k) (map fst fields) then map fst fields
    else map fst fields ++ [k].
Proof.
  induction fields as [| [k' v'] rest IH]; simpl; [reflexivity |].
  rewrite (String.eqb_sym k k').
  destruct (String.eqb_spec k' k); simpl.
  - subst k'. reflexivity.
  - rewrite IH. destruct (existsb (String.eqb k) (map fst rest)); reflexivity.
Qed.

(** X10: applied to any request, also one that already has an
    [Authorization] header, the credential type's decorator leaves the
    request with the value [Token <token>] under [Authorization], keeps the
    value of every other header, adds no second property of that name (the
    header names are the old ones, plus [Authorization] when it was not
    there), leaves method, URI, query and form data alone, and applying it
    twice is the same as applying it once. *)
Theorem authenticate_overwrites_authorization (c : Credentials) (r : IRequestOptions) :
  obj_get (headers (PaperlessNgxApi.authenticate c r)) "Authorization"
  = Some ("Token " ++ token c)%string /\
  (forall k, k <> "Authorization" ->
             obj_get (headers (PaperlessNgxApi.authenticate c r)) k
             = obj_get (headers r) k) /\
  map fst (headers (PaperlessNgxApi.authenticate c r))
  = (if existsb (String.eqb "Authorization") (map fst (headers r))
     then map fst (headers r)
     else map fst (headers r) ++ ["Authorization"]) /\
  (method (PaperlessNgxApi.authenticate c r) = method r /\
   uri (PaperlessNgxApi.authenticate c r) = uri r /\
   qs (PaperlessNgxApi.authenticate c r) = qs r /\
   formData (PaperlessNgxApi.authenticate c r) = formData r) /\
  PaperlessNgxApi.authenticate c (PaperlessNgxApi.authenticate c r)
  = PaperlessNgxApi.authenticate c r.
Proof.
  unfold PaperlessNgxApi.authenticate; cbn [headers method uri qs formData json_flag].
  split; [apply obj_get_set_same |].
  split; [intros k Hk; apply obj_get_set_other; exact Hk |].
  split; [apply obj_set_keys |].
  split; [repeat split |].
  rewrite obj_set_twice. reflexivity.
Qed.

Lemma authenticate_overwrites_authorization_witness :
  let r := {| method := "GET"; uri := JStr "https://dms.example/api/tags/";
              headers := [("Authorization", "Basic dXNlcjpwdw=="); ("Accept", "text/html")];
              qs := []; formData := []; json_flag := true |} in
  obj_get (headers (PaperlessNgxApi.authenticate Sample.creds r)) "Accept"
  = Some "text/html" /\
  map fst (headers (PaperlessNgxApi.authenticate Sample.creds r))
  = ["Authorization"; "Accept"].
Proof.
  intros r.
  destruct (authenticate_overwrites_authorization Sample.creds r)
    as (_ & Hother & Hkeys & _).
  split.
  - rewrite (Hother "Accept"); [reflexivity | discriminate].
  - rewrite Hkeys. reflexivity.
Defined.

(* ------------------------------------------------------------------ *)
(** ** Runs without errors *)


Lemma tryBlock_mode (b : bool) (h : Host) (pfuel idx : nat) (st : State) :
  tryBlock (with_continueOnFail b h) pfuel idx st = tryBlock h pfuel idx st.
Proof. reflexivity. Qed.

Lemma forLoop_mode (h : Host) (pfuel : nat) : forall fuel idx st st',
  forLoop (with_continueOnFail false h) pfuel fuel idx st = (Ok tt, st') ->
  forLoop (with_continueOnFail true h) pfuel fuel idx st = (Ok tt, st').
Proof.
  induction fuel as [| fuel IH]; intros idx st st' H; simpl in H |- *;
    [discriminate |].
  destruct (idx <? List.length (items st))%nat; [| exact H].
  rewrite tryBlock_mode in H |- *.
  destruct (tryBlock h pfuel idx st) as [[[] | e |] st1]; try discriminate.
  apply IH. exact H.
Qed.

(** X12: the continuation mode matters only when an item fails: a run that
    returns in abort mode returns the same output, with the same requests
    sent and the same input store, in continue mode. *)
Theorem continue_mode_agrees_on_success (h : Host) (pfuel fuel : nat)
    (inputs : list (list INodeExecutionData))
    (outs : list (list INodeExecutionData)) (st : State) :
  execute (with_continueOnFail false h) pfuel fuel inputs = (Ok outs, st) ->
  execute (with_continueOnFail true h) pfuel fuel inputs = (Ok outs, st).
Proof.
  intros H.
  destruct (Resource_eq_dec (resource h)) as [Hres | Hres].
  - rewrite (execute_document (with_continueOnFail false h)) in H by exact Hres.
    rewrite (execute_document (with_continueOnFail true h)) by exact Hres.
    destruct (forLoop (with_continueOnFail false h) pfuel fuel 0 (start inputs))
      as [[[] | e |] st1] eqn:Hrun; try discriminate.
    apply forLoop_mode in Hrun. rewrite Hrun. exact H.
  - rewrite (execute_undeclared (with_continueOnFail false h)) in H by exact Hres.
    discriminate.
Qed.

Lemma continue_mode_agrees_on_success_witness :
  fst (execute (with_continueOnFail true (Sample.createHost false)) 0 3
         [[Sample.withFile 1; Sample.withFile 2]])
  = Ok [[taskRecord (JStr "c9d3ab1e-task"); taskRecord (JStr "c9d3ab1e-task")]].
Proof.
  exact (f_equal fst
           (continue_mode_agrees_on_success (Sample.createHost false) 0 3
              [[Sample.withFile 1; Sample.withFile 2]] _ _ eq_refl)).
Defined.

(* ------------------------------------------------------------------ *)
(** ** Kinds of requests *)

(** X13: an upload the remote rejects is sent exactly once and not retried:
    the iteration raises the remote's failure, the log has grown by that one
    POST, and no record is appended. *)
Theorem rejected_upload_is_not_retried (h : Host) (pfuel idx : nat) (st : State)
    (b : IBinaryData) (e : JsError) :
  resource h = Document ->
  operation h = Create ->
  binaryOf idx (documentFieldName h idx) st = Some b ->
  remote h (sent st)
         (PaperlessNgxApi.authenticate (credentials h) (createRequestOptions h b b))
  = Failure e ->
  tryBlock h pfuel idx st
  = (Throw e,
     {| inputData := inputData st;
        returnData := returnData st;
        sent := sent st
                ++ [(idx, PaperlessNgxApi.authenticate (credentials h)
                            (createRequestOptions h b b))] |}).
Proof.
  intros Hres Hop Hb Hr.
  rewrite tryBlock_create by assumption.
  unfold createBranch, bind, assertBinaryData.
  rewrite Hb. cbv beta iota. rewrite Hb. cbv beta iota.
  unfold requestWithAuthentication. cbv beta zeta. rewrite Hr.
  reflexivity.
Qed.

Lemma rejected_upload_is_not_retried_witness :
  let h := mkHost Sample.creds Document Create true (fun _ => Some "data") (fun _ => [])
                  (Sample.replay []) in
  fst (tryBlock h 0 0 (start [[Sample.withFile 1]]))
  = Throw {| err_name := "NodeApiError";
             err_message := "404 - Not Found";
             err_context := Some (mkContext None) |} /\
  List.length (sent (snd (tryBlock h 0 0 (start [[Sample.withFile 1]])))) = 1.
Proof.
  intros h.
  rewrite (rejected_upload_is_not_retried h 0 0 (start [[Sample.withFile 1]])
             Sample.pdf _ eq_refl eq_refl eq_refl eq_refl).
  split; reflexivity.
Defined.

Lemma paginated_sends_gets (h : Host) (fuel : nat) : forall r idx po st res st',
  method r = "GET" ->
  formData r = [] ->
  requestWithAuthenticationPaginated h fuel r idx po st = (res, st') ->
  exists l, sent st' = sent st ++ l /\
            Forall (fun q => method (snd q) = "GET" /\ formData (snd q) = []) l.
Proof.
  induction fuel as [| fuel IH]; intros r idx po st res st' Hm Hf H; simpl in H.
  - pair_inv H. exists []. rewrite app_nil_r. auto.
  - unfold bind at 1 in H. rewrite requestWithAuthentication_eq in H.
    assert (Hone : Forall (fun q : nat * IRequestOptions =>
                             method (snd q) = "GET" /\ formData (snd q) = [])
                          [(idx, PaperlessNgxApi.authenticate (credentials h) r)])
      by (constructor; [split; assumption | constructor]).
    destruct (remote h (sent st) _) as [b | e];
      [| pair_inv H; eexists; split; [reflexivity | exact Hone]].
    bind_inv H; apply resolve_inv in E; subst;
      try solve [pair_inv H; eexists; split; [reflexivity | exact Hone]].
    destruct a; [| unfold ret in H; pair_inv H; eexists; split; [reflexivity | exact Hone]].
    bind_inv H; apply resolve_inv in E; subst;
      try solve [pair_inv H; eexists; split; [reflexivity | exact Hone]].
    bind_inv H; (apply IH in E; [| exact Hm | exact Hf]);
      destruct E as (l & Hl & Fl); unfold ret in H; pair_inv H;
      (exists ((idx, PaperlessNgxApi.authenticate (credentials h) r) :: l);
       split; [rewrite Hl; cbn [sent]; rewrite <- app_assoc; reflexivity
              | constructor; [split; assumption | exact Fl]]).
Qed.

Lemma readBranch_sends_gets (h : Host) (pfuel idx : nat) (st : State) res st' :
  readBranch h pfuel idx st = (res, st') ->
  exists l, sent st' = sent st ++ l /\
            Forall (fun q => method (snd q) = "GET" /\ formData (snd q) = []) l.
Proof.
  unfold readBranch. intros H.
  bind_inv H;
    (apply paginated_sends_gets in E; [| reflexivity | reflexivity]);
    destruct E as (l & Hl & Fl);
    try solve [pair_inv H; exists l; auto].
  destruct (flatMap resultsOf a); unfold returnData_push, throw in H;
    pair_inv H; exists l; auto.
Qed.

Lemma tryBlock_requests_fit (h : Host) (pfuel idx : nat) (st : State) res st' :
  tryBlock h pfuel idx st = (res, st') ->
  exists l, sent st' = sent st ++ l /\ Forall (fits_operation h) l.
Proof.
  intros H. unfold fits_operation.
  destruct (resource h) eqn:Hres;
    try solve [unfold tryBlock in H; rewrite Hres in H;
               cbv [Resource_eqb ret] in H; pair_inv H;
               exists []; rewrite app_nil_r; auto].
  destruct (operation h) eqn:Hop;
    try solve [unfold tryBlock in H; rewrite Hres, Hop in H;
               cbv [Resource_eqb Operation_eqb bind ret] in H; pair_inv H;
               exists []; rewrite app_nil_r; auto].
  - rewrite tryBlock_create in H by assumption.
    unfold createBranch in H.
    bind_inv H; unfold assertBinaryData in E;
      destruct (binaryOf idx (documentFieldName h idx) st) eqn:B;
      pair_inv E; try solve [pair_inv H; exists []; rewrite app_nil_r; auto].
    bind_inv H; rewrite B in E; pair_inv E.
    unfold bind at 1 in H. rewrite requestWithAuthentication_eq in H.
    assert (Hone : Forall (fun q : nat * IRequestOptions =>
                             is_upload h q /\
                             exists part, formData (snd q) = [("document", part)])
                          [(idx, PaperlessNgxApi.authenticate (credentials h)
                                   (createRequestOptions h a0 a0))]).
    { constructor; [| constructor]. split; [split; reflexivity |].
      eexists. reflexivity. }
    destruct (remote h (sent st) _) as [b | e];
      [unfold returnData_push in H |]; pair_inv H;
      eexists; (split; [reflexivity | exact Hone]).
  - rewrite tryBlock_read in H by assumption.
    bind_inv H; apply readBranch_sends_gets in E; destruct E as (l & Hl & Fl);
      unfold ret in H; pair_inv H; exists l; auto.
Qed.

Lemma forLoop_requests_fit (h : Host) (pfuel : nat) : forall fuel idx st res st',
  Forall (fits_operation h) (sent st) ->
  forLoop h pfuel fuel idx st = (res, st') ->
  Forall (fits_operation h) (sent st').
Proof.
  induction fuel as [| fuel IH]; intros idx st res st' Hst H; simpl in H.
  - pair_inv H. exact Hst.
  - destruct (idx <? List.length (items st))%nat; [| pair_inv H; exact Hst].
    destruct (tryBlock h pfuel idx st) as [r1 st1] eqn:Ht.
    assert (H1 : Forall (fits_operation h) (sent st1)).
    { apply tryBlock_requests_fit in Ht. destruct Ht as (l & Hl & Fl).
      rewrite Hl. apply Forall_app; split; assumption. }
    destruct r1 as [[] | e |].
    + eapply IH; eauto.
    + destruct (catchBlock h idx e st1) as [r2 st2] eqn:Hc.
      apply catchBlock_frame in Hc. destruct Hc as (Hs & _).
      assert (H2 : Forall (fits_operation h) (sent st2)) by (rewrite Hs; exact H1).
      destruct r2 as [[] | e2 |]; try (pair_inv H; exact H2).
      eapply IH; eauto.
    + pair_inv H. exact H1.
Qed.

(** X14: a run only ever sends the kind of request its operation stands
    for: under Document/Create every request is a POST to the upload
    endpoint with the single form part [document], under Document/Read
    every request is a GET without form data, and under every other
    combination no request is sent at all, however the run ends. *)
Theorem requests_match_the_operation (h : Host) (pfuel fuel : nat)
    (inputs : list (list INodeExecutionData)) :
  Forall (fits_operation h) (sent (snd (execute h pfuel fuel inputs))).
Proof.
  rewrite execute_state.
  destruct (forLoop h pfuel fuel 0 (start inputs)) as [res st] eqn:H.
  apply forLoop_requests_fit in H; [exact H | constructor].
Qed.
